(** * Budget visualizer (script.js): recurring transactions, month keys,
      month navigation and budget carry-forward

    A shallow embedding of the logic of [src/script.js]:
    - [JSDate]: the ECMAScript time-value arithmetic behind [Date]
      ([getMonth], [setMonth], [setDate], [setFullYear], ...);
    - [Model]: transactions, budgets and the JavaScript values they hold;
    - [App]: the handlers of the [App], [TransactionForm],
      [EditTransactionModal] and [BudgetSetup] components. *)

From Stdlib Require Import Ascii Qcanon.
From stdpp Require Import base numbers list strings gmap fin_maps.
From stdpp Require Import pretty sorting.

(** ** ECMAScript dates

    A [Date] object is its time value: the number of milliseconds since
    1970-01-01T00:00:00Z, here an integer of [Z].  The definitions follow
    the abstract operations of ECMA-262 (section "Date Objects").  Two
    points of the platform are fixed by the embedding:
    - the local time zone is a constant offset [LocalTZA] from UTC (no
      daylight-saving transitions);
    - time values stay inside the range where [TimeClip] is the identity
      (about 273,000 years around 1970), so no [Date] is invalid.
    [toISOString] and [new Date(isoString)] are inverse to each other on
    such time values, so a stored ISO string is modelled by the time value
    it denotes. *)
Module JSDate.
Local Open Scope Z_scope.

Definition msPerDay : Z := 86400000.

Definition Day (t : Z) : Z := t `div` msPerDay.
Definition TimeWithinDay (t : Z) : Z := t `mod` msPerDay.

Definition DaysInYear (y : Z) : Z :=
  if decide (y `mod` 4 ≠ 0) then 365
  else if decide (y `mod` 100 ≠ 0) then 366
  else if decide (y `mod` 400 ≠ 0) then 365
  else 366.

Definition DayFromYear (y : Z) : Z :=
  365 * (y - 1970) + (y - 1969) `div` 4 - (y - 1901) `div` 100
  + (y - 1601) `div` 400.

(** ECMA-262 specifies [YearFromTime t] as the largest [y] with
    [TimeFromYear y <= t].  It is computed the way engines do: estimate
    the year from the mean length of a Gregorian year (146097 days in 400
    years) and correct the estimate by at most one.  [YearFromDay_spec]
    below shows that the result is the year of the specification. *)
Definition YearFromDay (d : Z) : Z :=
  let y := 1970 + (400 * d) `div` 146097 in
  if decide (d < DayFromYear y) then y - 1
  else if decide (DayFromYear (y + 1) ≤ d) then y + 1
  else y.

Definition YearFromTime (t : Z) : Z := YearFromDay (Day t).

Definition LeapOfYear (y : Z) : Z :=
  if decide (DaysInYear y = 366) then 1 else 0.

Definition InLeapYear (t : Z) : Z := LeapOfYear (YearFromTime t).

Definition DayWithinYear (t : Z) : Z := Day t - DayFromYear (YearFromTime t).

(** The month table of ECMA-262, as a function of the leap flag and the
    day within the year. *)
Definition MonthFromDayWithinYear (leap d : Z) : Z :=
  if decide (d < 31) then 0
  else if decide (d < 59 + leap) then 1
  else if decide (d < 90 + leap) then 2
  else if decide (d < 120 + leap) then 3
  else if decide (d < 151 + leap) then 4
  else if decide (d < 181 + leap) then 5
  else if decide (d < 212 + leap) then 6
  else if decide (d < 243 + leap) then 7
  else if decide (d < 273 + leap) then 8
  else if decide (d < 304 + leap) then 9
  else if decide (d < 334 + leap) then 10
  else 11.

(** Number of days of the year that precede month [mn] (0 = January). *)
Definition DaysBeforeMonth (leap mn : Z) : Z :=
  match mn with
  | 0 => 0
  | 1 => 31
  | 2 => 59 + leap
  | 3 => 90 + leap
  | 4 => 120 + leap
  | 5 => 151 + leap
  | 6 => 181 + leap
  | 7 => 212 + leap
  | 8 => 243 + leap
  | 9 => 273 + leap
  | 10 => 304 + leap
  | _ => 334 + leap
  end.

Definition DaysInMonth (leap mn : Z) : Z :=
  match mn with
  | 1 => 28 + leap
  | 3 | 5 | 8 | 10 => 30
  | _ => 31
  end.

Definition MonthFromTime (t : Z) : Z :=
  MonthFromDayWithinYear (InLeapYear t) (DayWithinYear t).

Definition DateFromTime (t : Z) : Z :=
  DayWithinYear t - DaysBeforeMonth (InLeapYear t) (MonthFromTime t) + 1.

(** [MakeDay year month date]: months outside 0..11 carry into the year,
    dates outside the month carry into the neighbouring months. *)
Definition MakeDay (year month date : Z) : Z :=
  let ym := year + month `div` 12 in
  let mn := month `mod` 12 in
  DayFromYear ym + DaysBeforeMonth (LeapOfYear ym) mn + date - 1.

Definition MakeDate (day time : Z) : Z := day * msPerDay + time.

Section LocalTime.
(** Offset of local time from UTC, in milliseconds. *)
Variable LocalTZA : Z.

Definition LocalTime (t : Z) : Z := t + LocalTZA.
Definition UTC (t : Z) : Z := t - LocalTZA.

Definition getFullYear (t : Z) : Z := YearFromTime (LocalTime t).
Definition getMonth (t : Z) : Z := MonthFromTime (LocalTime t).
Definition getDate (t : Z) : Z := DateFromTime (LocalTime t).

(** [d.setMonth(month)]: the day of the month is kept as a number, so a
    day the target month does not have rolls over into the next one. *)
Definition setMonth (t month : Z) : Z :=
  let lt := LocalTime t in
  UTC (MakeDate (MakeDay (YearFromTime lt) month (DateFromTime lt))
                (TimeWithinDay lt)).

(** [d.setDate(date)] *)
Definition setDate (t date : Z) : Z :=
  let lt := LocalTime t in
  UTC (MakeDate (MakeDay (YearFromTime lt) (MonthFromTime lt) date)
                (TimeWithinDay lt)).

(** [d.setFullYear(year, month, date)] *)
Definition setFullYear (t year month date : Z) : Z :=
  let lt := LocalTime t in
  UTC (MakeDate (MakeDay year month date) (TimeWithinDay lt)).

(** The idiom of the source for "advance by [i] calendar months":
    [d.setMonth(d.getMonth() + i)]. *)
Definition addMonths (t i : Z) : Z := setMonth t (getMonth t + i).
End LocalTime.

End JSDate.

(** ** Data model *)
Module Model.

(** A JavaScript number, as far as the program looks at it: it is tested
    for truthiness and compared with zero.  Every finite double is a
    rational; [-0] and [+0] are both [Finite 0]. *)
Inductive number :=
  | NaN
  | Infinity (negative : bool)
  | Finite (q : Qc).

#[global] Instance number_eq_dec : EqDecision number.
Proof. solve_decision. Defined.

(** [ToBoolean n]: false for [NaN] and zero. *)
Definition truthy (n : number) : bool :=
  match n with
  | NaN => false
  | Infinity _ => true
  | Finite q => bool_decide (q ≠ 0%Qc)
  end.

(** [n <= 0] and [n > 0]; every comparison with [NaN] is false. *)
Definition le_zero (n : number) : bool :=
  match n with
  | NaN => false
  | Infinity negative => negative
  | Finite q => bool_decide (q ≤ 0)%Qc
  end.

Definition gt_zero (n : number) : bool :=
  match n with
  | NaN => false
  | Infinity negative => negb negative
  | Finite q => bool_decide (0 < q)%Qc
  end.

(** An identifier made by [uuidv4()].  The library returns 36-character
    strings, which are truthy and compared with [===]; only their identity
    matters, so an identifier is represented by an index. *)
Inductive uuid := UUID (n : N).

#[global] Instance uuid_eq_dec : EqDecision uuid.
Proof. solve_decision. Defined.

Inductive TransactionType := Income | Expense.

#[global] Instance TransactionType_eq_dec : EqDecision TransactionType.
Proof. solve_decision. Defined.

Definition ExpenseCategoryValues : list string :=
  ["Household"; "Groceries"; "Subscriptions"; "Dining Out"; "Travel";
   "Other"].

(** The object a form hands to [onAddTransaction]: a transaction without
    [id] and [recurringId].  [category] is [undefined] ([None]) for
    income; [date] is the time value of the ISO string. *)
Module Draft.
Record t := mk {
  description : string;
  amount : number;
  type : TransactionType;
  category : option string;
  date : Z
}.
End Draft.

Record Transaction := mkTransaction {
  id : uuid;
  description : string;
  amount : number;
  type : TransactionType;
  category : option string;
  date : Z;
  recurringId : option uuid
}.

#[global] Instance Transaction_eq_dec : EqDecision Transaction.
Proof. solve_decision. Defined.

(** The [recurring] object of a budget; a key that is absent is [None]. *)
Module Recurring.
Record t := mk {
  incomeGoal : option bool;
  savingsGoal : option bool;
  expenseBudgets : option (gmap string bool)
}.

(** [{}] *)
Definition empty : t := mk None None None.

(** [Object.keys(r).length === 0] *)
Definition hasNoKeys (r : t) : bool :=
  match incomeGoal r, savingsGoal r, expenseBudgets r with
  | None, None, None => true
  | _, _, _ => false
  end.
End Recurring.

Record Budget := mkBudget {
  incomeGoal : number;
  savingsGoal : number;
  expenseBudgets : gmap string number;
  recurring : option Recurring.t
}.

(** [o.flag ? a : b] on an optional boolean property. *)
Definition flagSet (flag : option bool) : bool := default false flag.

End Model.

(** ** Array methods and the identifier generator *)
Module JS.
Local Open Scope Z_scope.

(** [l.find(P)]: the first element that satisfies [P], if any. *)
Definition Array_find {A} (P : A → Prop) `{!∀ x, Decision (P x)}
    (l : list A) : option A :=
  snd <$> list_find P l.

(** [l.sort(compareFn)].  The sort of ECMAScript is stable, so for a
    consistent comparator its result is the one of any stable sort; this
    one inserts each element before the first element of the sorted rest
    that does not come strictly earlier. *)
Fixpoint Array_sort_insert {A} (compareFn : A → A → Z) (x : A)
    (l : list A) : list A :=
  match l with
  | [] => [x]
  | y :: l' =>
      if decide (compareFn x y ≤ 0) then x :: y :: l'
      else y :: Array_sort_insert compareFn x l'
  end.

Definition Array_sort {A} (compareFn : A → A → Z) (l : list A) : list A :=
  foldr (Array_sort_insert compareFn) [] l.

(** [s.padStart(targetLength, padString)] *)
Fixpoint padding (padString rest : string) (fillLen : nat) : string :=
  match fillLen with
  | O => ""
  | S fillLen' =>
      match rest with
      | String c rest' => String c (padding padString rest' fillLen')
      | EmptyString =>
          match padString with
          | String c rest' => String c (padding padString rest' fillLen')
          | EmptyString => ""
          end
      end
  end.

Definition padStart (targetLength : nat) (padString s : string) : string :=
  padding padString padString (targetLength - String.length s) +:+ s.

(** A computation that may call [uuidv4()]: the state counts the calls
    made so far, and [uuids n] is what call number [n] returns. *)
Definition Gen (A : Type) : Type := nat → A * nat.

#[global] Instance Gen_ret : MRet Gen := λ A x n, (x, n).
#[global] Instance Gen_bind : MBind Gen :=
  λ A B f m n, let '(x, n') := m n in f x n'.

Definition uuidv4 (uuids : nat → Model.uuid) : Gen Model.uuid :=
  λ n, (uuids n, S n).

(** [setState(updater)] with a functional updater, run on the current
    state.  Each handler below runs to completion on the state of the
    last render, so the [prev] of its updater is the list it closed
    over. *)
Definition setState {S} (updater : S → S) (current : S) : S :=
  updater current.

End JS.

(** ** The components *)

(** *** [TransactionForm] *)
Module TransactionForm.
Import Model JS.

Record state := mk {
  description : string;
  amount : string;
  type : TransactionType;
  category : string;
  isRecurring : bool;
  recurrence : Z;
  error : string
}.

Definition errorMessage : string :=
  "Please enter a valid description and positive amount.".

(** [handleSubmit]: the new state of the form and the call of
    [onAddTransaction] it makes, if any. *)
Definition handleSubmit (parseFloat : string → number) (currentDate : Z)
    (s : state) : state * option (Draft.t * Z) :=
  let numericAmount := parseFloat (amount s) in
  if bool_decide (description s = "") || negb (truthy numericAmount)
     || le_zero numericAmount
  then
    (mk (description s) (amount s) (type s) (category s) (isRecurring s)
        (recurrence s) errorMessage,
     None)
  else
    (mk "" "" (type s) (category s) false 1 "",
     Some (Draft.mk (description s) numericAmount (type s)
             (if decide (type s = Expense) then Some (category s) else None)
             currentDate,
           if isRecurring s then recurrence s else 0%Z)).

End TransactionForm.

(** *** [EditTransactionModal] *)
Module EditTransactionModal.
Import Model JS.

(** [date] is the value of the date input: ["YYYY-MM-DD"], here its three
    numbers, or [None] when the field is empty. *)
Record state := mk {
  description : string;
  amount : string;
  type : TransactionType;
  category : string;
  date : option (Z * Z * Z);
  error : string
}.

Inductive outcome :=
  | Returned (s : state) (onUpdateTransaction : option (Transaction * string))
  | RangeError.

(** [handleUpdate scope], for the transaction being edited.  With an
    empty date field [newDate] is an invalid date and [toISOString]
    throws before [onUpdateTransaction] is called. *)
Definition handleUpdate (parseFloat : string → number) (LocalTZA : Z)
    (transaction : Transaction) (s : state) (scope : string) : outcome :=
  let numericAmount := parseFloat (amount s) in
  if bool_decide (description s = "") || negb (truthy numericAmount)
     || le_zero numericAmount
  then
    Returned (mk (description s) (amount s) (type s) (category s) (date s)
                 TransactionForm.errorMessage) None
  else
    let originalDate := Model.date transaction in
    match date s with
    | None => RangeError
    | Some (year, month, day) =>
        let newDate :=
          JSDate.setFullYear LocalTZA originalDate year (month - 1) day in
        Returned s
          (Some (mkTransaction (id transaction) (description s) numericAmount
                   (type s)
                   (if decide (type s = Expense) then Some (category s)
                    else None)
                   newDate (recurringId transaction),
                 scope))
    end.

End EditTransactionModal.

(** *** [BudgetSetup] *)
Module BudgetSetup.
Import Model JS.

(** [target[cat] = source[cat]]: afterwards [target[cat]] reads what
    [source[cat]] reads, [undefined] included. *)
Definition assignFrom (source : gmap string number) (cat : string)
    (target : gmap string number) : gmap string number :=
  match source !! cat with
  | Some v => <[cat := v]> target
  | None => delete cat target
  end.

(** The [for (const cat of Object.keys(flags))] loop of the effect. *)
Definition copyRecurringExpenses (flags : gmap string bool)
    (previous : gmap string number) (expenseBudgets : gmap string number)
    : gmap string number :=
  map_fold (λ cat flag acc, if flag : bool then assignFrom previous cat acc
                            else acc)
           expenseBudgets flags.

(** The effect that runs when the editor opens ([isOpen]): the values of
    the [budget] and [recurring] states it sets. *)
Definition onOpen (initialBudget : Budget) (previousBudget : option Budget)
    : Budget * Recurring.t :=
  let isInitialDefault :=
    match recurring initialBudget with
    | None => true
    | Some r => Recurring.hasNoKeys r
    end in
  let asStored :=
    (initialBudget, default Recurring.empty (recurring initialBudget)) in
  match previousBudget with
  | Some previous =>
      match recurring previous with
      | Some previousRecurring =>
          if isInitialDefault then
            let newBudget :=
              mkBudget
                (if flagSet (Recurring.incomeGoal previousRecurring)
                 then incomeGoal previous else incomeGoal initialBudget)
                (if flagSet (Recurring.savingsGoal previousRecurring)
                 then savingsGoal previous else savingsGoal initialBudget)
                (match Recurring.expenseBudgets previousRecurring with
                 | Some flags =>
                     copyRecurringExpenses flags (expenseBudgets previous)
                       (expenseBudgets initialBudget)
                 | None => expenseBudgets initialBudget
                 end)
                None in
            (newBudget, previousRecurring)
          else asStored
      | None => asStored
      end
  | None => asStored
  end.

End BudgetSetup.

(** *** [App] *)
Module App.
Import Model JS.
Local Open Scope Z_scope.

Definition emptyBudget : Budget :=
  mkBudget (Finite (Qc_of_Z 5000)) (Finite (Qc_of_Z 500))
    (list_to_map
       ((λ cat, (cat, Finite (Qc_of_Z 0))) <$> ExpenseCategoryValues))
    (Some Recurring.empty).

Record MonthKeys := mkMonthKeys {
  currentMonthKey : string;
  previousMonthKey : string
}.

(** The calendar month after and before month [m] (0 = January) of year
    [y]. *)
Definition nextMonth (y m : Z) : Z * Z :=
  if decide (m = 11) then (y + 1, 0) else (y, m + 1).

Definition prevMonth (y m : Z) : Z * Z :=
  if decide (m = 0) then (y - 1, 11) else (y, m - 1).

(** The invariant of a stored transaction: a positive amount, and a
    category exactly for an expense. *)
Definition wellFormed (t : Transaction) : Prop :=
  gt_zero (amount t) = true ∧ (is_Some (category t) ↔ type t = Expense).

(** A form entry that must be rejected: no description, an amount that
    does not parse to a number, or a parsed amount that is not
    positive. *)
Definition invalidEntry (parseFloat : string → number)
    (description amount : string) : Prop :=
  description = ""
  ∨ parseFloat amount = NaN
  ∨ le_zero (parseFloat amount) = true.

Section Handlers.
(** The platform: the offset of local time, the results of the
    successive calls of [uuidv4()], and [parseFloat]. *)
Variable LocalTZA : Z.
Variable uuids : nat → uuid.
Variable parseFloat : string → number.

Local Abbreviation getFullYear := (JSDate.getFullYear LocalTZA).
Local Abbreviation getMonth := (JSDate.getMonth LocalTZA).
Local Abbreviation setMonth := (JSDate.setMonth LocalTZA).
Local Abbreviation setDate := (JSDate.setDate LocalTZA).

(** [`${year}-${(month + 1).toString().padStart(2, '0')}`] *)
Definition monthKey (year month : Z) : string :=
  pretty year +:+ "-" +:+ padStart 2 "0" (pretty (month + 1)).

(** The [useMemo] that computes [currentMonthKey] and
    [previousMonthKey] from [currentDate]. *)
Definition monthKeys (currentDate : Z) : MonthKeys :=
  let year := getFullYear currentDate in
  let month := getMonth currentDate in
  let currentKey := monthKey year month in
  let prevDate := currentDate in
  let prevDate := setMonth prevDate (getMonth prevDate - 1) in
  let prevYear := getFullYear prevDate in
  let prevMonth := getMonth prevDate in
  let previousKey := monthKey prevYear prevMonth in
  mkMonthKeys currentKey previousKey.

(** [budgets[currentMonthKey] || emptyBudget] and
    [budgets[previousMonthKey]] *)
Definition currentBudget (budgets : gmap string Budget)
    (currentDate : Z) : Budget :=
  default emptyBudget (budgets !! currentMonthKey (monthKeys currentDate)).

Definition previousBudget (budgets : gmap string Budget)
    (currentDate : Z) : option Budget :=
  budgets !! previousMonthKey (monthKeys currentDate).

(** [handleMonthChange direction], as the updater of [currentDate]. *)
Definition handleMonthChange (direction : string) (prevDate : Z) : Z :=
  let newDate := prevDate in
  let newDate := setDate newDate 1 in
  setMonth newDate
    (getMonth newDate + (if decide (direction = "next") then 1 else -1)).

(** The body of the [for (let i = 0; i <= recurrence; i++)] loop of
    [handleAddTransaction], for the [iterations] rounds that remain. *)
Fixpoint pushOccurrences (transaction : Draft.t) (recurringId : uuid)
    (iterations : nat) (i : Z) (newTransactions : list Transaction)
    : Gen (list Transaction) :=
  match iterations with
  | O => mret newTransactions
  | S iterations' =>
      let transactionDate :=
        setMonth (Draft.date transaction)
                 (getMonth (Draft.date transaction) + i) in
      id ← uuidv4 uuids;
      pushOccurrences transaction recurringId iterations' (i + 1)
        (newTransactions ++
           [mkTransaction id (Draft.description transaction)
              (Draft.amount transaction) (Draft.type transaction)
              (Draft.category transaction) transactionDate
              (Some recurringId)])
  end.

Definition handleAddTransaction (transactions : list Transaction)
    (transaction : Draft.t) (recurrence : Z) : Gen (list Transaction) :=
  if decide (0 < recurrence) then
    recurringId ← uuidv4 uuids;
    newTransactions ←
      pushOccurrences transaction recurringId
        (Z.to_nat (recurrence + 1)) 0 [];
    mret (setState (λ prev, prev ++ newTransactions) transactions)
  else
    id ← uuidv4 uuids;
    let newTransaction :=
      mkTransaction id (Draft.description transaction)
        (Draft.amount transaction) (Draft.type transaction)
        (Draft.category transaction) (Draft.date transaction) None in
    mret (setState (λ prev, prev ++ [newTransaction]) transactions).

(** The occurrences selected by an update with scope [future], in
    chronological order. *)
Definition futureTransactions (recurringId' : option uuid)
    (originalTransactionDate : Z) (prev : list Transaction)
    : list Transaction :=
  Array_sort (λ a b, date a - date b)
    (filter (λ t, recurringId t = recurringId'
                  ∧ originalTransactionDate ≤ date t) prev).

(** The copy of [t] that the update writes at position [index] of the
    selected occurrences. *)
Definition updatedOccurrence (updatedTransaction : Transaction)
    (index : nat) (t : Transaction) : Transaction :=
  let newDate :=
    setMonth (date updatedTransaction)
             (getMonth (date updatedTransaction) + Z.of_nat index) in
  mkTransaction (id t) (description updatedTransaction)
    (amount updatedTransaction) (type updatedTransaction)
    (category updatedTransaction) newDate (recurringId t).

Definition handleUpdateTransaction (transactions : list Transaction)
    (updatedTransaction : Transaction) (scope : string)
    : list Transaction :=
  if decide (scope = "future" ∧ is_Some (recurringId updatedTransaction))
  then
    match Array_find (λ t, id t = id updatedTransaction) transactions with
    | None => transactions
    | Some originalTransaction =>
        let originalTransactionDate := date originalTransaction in
        setState (λ prev,
          let updatedFutureTransactions :=
            imap (updatedOccurrence updatedTransaction)
              (futureTransactions (recurringId updatedTransaction)
                 originalTransactionDate prev) in
          (λ t, let updatedVersion :=
                  Array_find (λ uft, id uft = id t)
                    updatedFutureTransactions in
                default t updatedVersion) <$> prev)
          transactions
    end
  else
    setState (λ prev,
      (λ t, if decide (id t = id updatedTransaction)
            then updatedTransaction else t) <$> prev)
      transactions.

(** [handleDeleteTransaction id recurringId]; [confirm] is the answer
    to the [window.confirm] dialog, asked only for a recurring
    transaction (OK = all future occurrences). *)
Definition handleDeleteTransaction (transactions : list Transaction)
    (id' : uuid) (recurringId' : option uuid) (confirm : bool)
    : list Transaction :=
  match recurringId' with
  | Some _ =>
      if confirm then
        match Array_find (λ t, id t = id') transactions with
        | None => transactions
        | Some transactionToDelete =>
            let transactionDate := date transactionToDelete in
            setState (λ prev,
              filter (λ t, ¬ (recurringId t = recurringId'
                              ∧ transactionDate ≤ date t)) prev)
              transactions
        end
      else setState (λ prev, filter (λ t, id t ≠ id') prev) transactions
  | None => setState (λ prev, filter (λ t, id t ≠ id') prev) transactions
  end.

(** The form and the modal wired to the handlers, as [App] renders
    them ([onAddTransaction], [onUpdateTransaction]). *)
Definition submitTransactionForm (transactions : list Transaction)
    (currentDate : Z) (form : TransactionForm.state)
    : Gen (TransactionForm.state * list Transaction) :=
  match TransactionForm.handleSubmit parseFloat currentDate form with
  | (form', Some (transaction, recurrence)) =>
      transactions' ← handleAddTransaction transactions transaction
                        recurrence;
      mret (form', transactions')
  | (form', None) => mret (form', transactions)
  end.

Definition submitEditTransactionModal (transactions : list Transaction)
    (editingTransaction : Transaction) (modal : EditTransactionModal.state)
    (scope : string) : EditTransactionModal.state * list Transaction :=
  match EditTransactionModal.handleUpdate parseFloat LocalTZA
          editingTransaction modal scope with
  | EditTransactionModal.Returned modal' (Some (updatedTransaction, scope')) =>
      (modal', handleUpdateTransaction transactions updatedTransaction
                 scope')
  | EditTransactionModal.Returned modal' None => (modal', transactions)
  | EditTransactionModal.RangeError => (modal, transactions)
  end.

(** The mutations of the transaction list that the interface offers:
    submitting the form, saving the modal for a listed transaction (the
    [future] button exists only for a recurring one), and deleting a
    listed transaction. *)
Inductive step (transactions : list Transaction)
    : list Transaction → Prop :=
  | step_add currentDate form n :
      step transactions
        (submitTransactionForm transactions currentDate form n).1.2
  | step_update editingTransaction modal scope :
      editingTransaction ∈ transactions →
      scope = "this"
      ∨ (scope = "future" ∧ is_Some (recurringId editingTransaction)) →
      step transactions
        (submitEditTransactionModal transactions editingTransaction modal
           scope).2
  | step_delete transaction confirm :
      transaction ∈ transactions →
      step transactions
        (handleDeleteTransaction transactions (id transaction)
           (recurringId transaction) confirm).

End Handlers.
End App.

(** ** The rest of the components

    The parts of the components that the handlers above do not cover:
    the effect that fills the edit modal, the input handlers of the
    budget editor, the lists and totals that [App] derives for display,
    and [handleSaveBudget]. *)

(** *** [EditTransactionModal]: the effect that fills the fields *)
Module EditTransactionModalEffect.
Import Model JS EditTransactionModal.
Local Open Scope Z_scope.

(** [transaction.date.split('T')[0]], as the numbers [handleUpdate]
    later reads from it with [split('-').map(Number)].  The ISO string
    shows the UTC date: ["YYYY-MM-DD"] (["+YYYYYY-MM-DD"] after year
    9999) gives year, month (from 1) and day; before year 0 the string
    starts with the minus sign, the first piece is empty and the three
    numbers read are 0, the year without its sign, and the month. *)
Definition dateField (date : Z) : option (Z * Z * Z) :=
  let year := JSDate.YearFromTime date in
  if decide (0 ≤ year) then
    Some (year, JSDate.MonthFromTime date + 1, JSDate.DateFromTime date)
  else Some (0, - year, JSDate.MonthFromTime date + 1).

(** [useEffect(() => { if (transaction) { ... } }, [transaction])];
    [toString] is [Number.prototype.toString].  The error line is not
    touched. *)
Definition onTransaction (toString : number → string)
    (transaction : Transaction) (s : state) : state :=
  mk (Model.description transaction) (toString (Model.amount transaction))
     (Model.type transaction)
     (match Model.category transaction with
      | Some c => if decide (c = "") then "Groceries" else c
      | None => "Groceries"
      end)
     (dateField (Model.date transaction)) (error s).

End EditTransactionModalEffect.

(** *** [BudgetSetup]: the input handlers and [handleSave] *)
Module BudgetSetupHandlers.
Import Model JS.

(** [handleInputChange], as the updater of the [budget] state, for an
    input with the given [name] and [value]. *)
Definition handleInputChange (parseFloat : string → number)
    (name value : string) (prev : Budget) : Budget :=
  let numericValue :=
    if truthy (parseFloat value) then parseFloat value else Finite 0%Qc in
  if decide (name = "incomeGoal" ∨ name = "savingsGoal") then
    if decide (name = "incomeGoal") then
      mkBudget numericValue (savingsGoal prev) (expenseBudgets prev)
        (recurring prev)
    else
      mkBudget (incomeGoal prev) numericValue (expenseBudgets prev)
        (recurring prev)
  else
    mkBudget (incomeGoal prev) (savingsGoal prev)
      (<[name := numericValue]> (expenseBudgets prev)) (recurring prev).

(** [handleRecurringChange], as the updater of the [recurring] state;
    spreading an absent [prev.expenseBudgets] gives no key. *)
Definition handleRecurringChange (field : string) (checked : bool)
    (prev : Recurring.t) : Recurring.t :=
  if decide (field = "incomeGoal" ∨ field = "savingsGoal") then
    if decide (field = "incomeGoal") then
      Recurring.mk (Some checked) (Recurring.savingsGoal prev)
        (Recurring.expenseBudgets prev)
    else
      Recurring.mk (Recurring.incomeGoal prev) (Some checked)
        (Recurring.expenseBudgets prev)
  else
    Recurring.mk (Recurring.incomeGoal prev) (Recurring.savingsGoal prev)
      (Some (<[field := checked]>
               (default ∅ (Recurring.expenseBudgets prev)))).

(** [handleSave]: the budget handed to [onSave]. *)
Definition handleSave (budget : Budget) (recurring' : Recurring.t) : Budget :=
  mkBudget (incomeGoal budget) (savingsGoal budget) (expenseBudgets budget)
    (Some recurring').

End BudgetSetupHandlers.

(** *** [CategoryChart] and [BudgetProgress]: spending by category *)
Module CategoryChart.
Import Model JS.

(** [expense.category || 'Other'] *)
Definition categoryOrOther (category : option string) : string :=
  match category with
  | Some c => if decide (c = "") then "Other" else c
  | None => "Other"
  end.

(** [acc[category] || 0] *)
Definition totalOrZero (total : option number) : number :=
  match total with
  | Some n => if truthy n then n else Finite 0%Qc
  | None => Finite 0%Qc
  end.

(** The names that every object inherits from [Object.prototype]: for
    these [acc[category]] is not [undefined] in the empty object. *)
Definition ObjectPrototypeKeys : list string :=
  ["constructor"; "hasOwnProperty"; "isPrototypeOf"; "propertyIsEnumerable";
   "toLocaleString"; "toString"; "valueOf"; "__proto__"; "__defineGetter__";
   "__defineSetter__"; "__lookupGetter__"; "__lookupSetter__"].

(** The [reduce] that builds [categoryTotals] (and [actualSpending] in
    [BudgetProgress], with the same body).  [add] is the addition of
    doubles.  The result is [None] when a category is one of the
    inherited names: [acc[category]] is then a function or an object, and
    the entries are no longer numbers. *)
Definition categoryTotals (add : number → number → number)
    (expenses : list Transaction) : option (gmap string number) :=
  foldl (λ acc expense,
           totals ← acc;
           let category := categoryOrOther (category expense) in
           if decide (category ∈ ObjectPrototypeKeys) then None
           else Some (<[category :=
                          add (totalOrZero (totals !! category))
                              (amount expense)]> totals))
        (Some ∅) expenses.

(** One addition of the [reduce], seen from the entry of one category:
    [(acc[category] || 0) + expense.amount]. *)
Definition addExpense (add : number → number → number)
    (total : option number) (expense : Transaction) : option number :=
  Some (add (totalOrZero total) (amount expense)).

End CategoryChart.

(** *** [TransactionList] *)
Module TransactionList.
Import Model JS.
Local Open Scope Z_scope.

(** The items of the list in the order shown; [None] is the line that
    says that nothing is recorded for the month. *)
Definition items (transactions : list Transaction)
    : option (list Transaction) :=
  if decide (0 < length transactions)%nat then
    Some (Array_sort (λ a b, date a - date b) transactions)
  else None.

End TransactionList.

(** *** [App]: the derived lists and [handleSaveBudget] *)
Module AppView.
Import Model JS App.
Local Open Scope Z_scope.

Section View.
Variable LocalTZA : Z.

Definition filteredTransactions (transactions : list Transaction)
    (currentDate : Z) : list Transaction :=
  filter (λ t, JSDate.getFullYear LocalTZA (date t)
               = JSDate.getFullYear LocalTZA currentDate
               ∧ JSDate.getMonth LocalTZA (date t)
                 = JSDate.getMonth LocalTZA currentDate)
    transactions.

Definition incomeTransactions (transactions : list Transaction)
    (currentDate : Z) : list Transaction :=
  filter (λ t, type t = Income)
    (filteredTransactions transactions currentDate).

Definition expenseTransactions (transactions : list Transaction)
    (currentDate : Z) : list Transaction :=
  filter (λ t, type t = Expense)
    (filteredTransactions transactions currentDate).

(** [handleSaveBudget newBudget], as the updater of [budgets]. *)
Definition handleSaveBudget (budgets : gmap string Budget)
    (currentDate : Z) (newBudget : Budget) : gmap string Budget :=
  <[currentMonthKey (monthKeys LocalTZA currentDate) := newBudget]> budgets.

(** [count] presses of the button for the next month. *)
Definition pressNext (count : nat) (currentDate : Z) : Z :=
  Nat.iter count (handleMonthChange LocalTZA "next") currentDate.

End View.
End AppView.

(** ** Sample data

    A platform and a small list of transactions on which the handlers
    are run in the examples below. *)
Module Samples.
Import Model.
Local Open Scope Z_scope.

(** Call number [n] of [uuidv4()] returns identifier [n]. *)
Definition uuids (n : nat) : uuid := UUID (N.of_nat n).

Definition digit (c : ascii) : option Z :=
  let n := Z.of_nat (nat_of_ascii c) in
  if decide (48 ≤ n ≤ 57) then Some (n - 48) else None.

Fixpoint digits (acc : Z) (s : string) : option Z :=
  match s with
  | EmptyString => Some acc
  | String c s' => d ← digit c; digits (10 * acc + d) s'
  end.

(** [parseFloat] on the strings of the examples: decimal integers with
    an optional minus sign, and the empty string, which does not parse. *)
Definition parseFloat (s : string) : number :=
  match s with
  | EmptyString => NaN
  | String "-"%char s' =>
      match s' with
      | EmptyString => NaN
      | _ => from_option (λ n, Finite (Qc_of_Z (- n))) NaN (digits 0 s')
      end
  | _ => from_option (λ n, Finite (Qc_of_Z n)) NaN (digits 0 s)
  end.

(** Noon (UTC) of a day, [month] counted from 0. *)
Definition noon (year month day : Z) : Z :=
  JSDate.MakeDate (JSDate.MakeDay year month day) 43200000.

Definition rentGroup : uuid := UUID 100.

Definition rent (n : N) (month : Z) : Transaction :=
  mkTransaction (UUID n) "Rent" (Finite (Qc_of_Z 1200)) Expense
    (Some "Household") (noon 2024 month 15) (Some rentGroup).

Definition salary : Transaction :=
  mkTransaction (UUID 205) "Salary" (Finite (Qc_of_Z 9000)) Income None
    (noon 2024 1 1) None.

(** Rent from January to April 2024, and one salary. *)
Definition transactions : list Transaction :=
  [rent 201 0; rent 202 1; salary; rent 203 2; rent 204 3].

(** The February rent, edited to 1300 on the 20th of February. *)
Definition editedRent : Transaction :=
  mkTransaction (UUID 202) "Rent" (Finite (Qc_of_Z 1300)) Expense
    (Some "Household") (noon 2024 1 20) (Some rentGroup).

Definition rentModal : EditTransactionModal.state :=
  EditTransactionModal.mk "Rent" "1300" Expense "Household"
    (Some (2024, 2, 20)) "".

Definition gymDraft : Draft.t :=
  Draft.mk "Gym" (Finite (Qc_of_Z 150)) Expense (Some "Subscriptions")
    (noon 2024 2 10).

Definition gymForm : TransactionForm.state :=
  TransactionForm.mk "Gym" "150" Expense "Subscriptions" true 2 "".

(** A month with a saved budget whose recurring map is empty, and the
    budget of the month before it, with the savings goal flagged. *)
Definition storedBudget : Budget :=
  mkBudget (Finite (Qc_of_Z 7000)) (Finite (Qc_of_Z 500))
    (expenseBudgets App.emptyBudget) (Some Recurring.empty).

Definition lastMonthBudget : Budget :=
  mkBudget (Finite (Qc_of_Z 6000)) (Finite (Qc_of_Z 800))
    (<["Groceries" := Finite (Qc_of_Z 900)]> (expenseBudgets App.emptyBudget))
    (Some (Recurring.mk None (Some true)
             (Some {["Groceries" := true; "Travel" := false]}))).

End Samples.

(** More sample data: a platform twelve hours ahead of UTC, the printing
    of the amounts of the examples, and a stored budget. *)
Module ViewSamples.
Import Model.
Local Open Scope Z_scope.

(** [toString] on the amounts of the examples, which are integers. *)
Definition toString (n : number) : string :=
  match n with
  | NaN => "NaN"
  | Infinity negative => if negative then "-Infinity" else "Infinity"
  | Finite q => pretty (QArith_base.Qnum (this q))
  end.

(** The addition of doubles on the amounts of the examples, which are
    integers. *)
Definition add (a b : number) : number :=
  match a, b with
  | Finite p, Finite q => Finite (p + q)%Qc
  | _, _ => NaN
  end.

(** The offset of a time zone twelve hours ahead of UTC. *)
Definition twelveHoursAhead : Z := 43200000.

(** The second of the occurrences that [Samples.gymDraft] gives when it
    is repeated, as call 0 of [uuidv4()] and after make it. *)
Definition gymApril : Transaction :=
  mkTransaction (Samples.uuids 2) "Gym" (Finite (Qc_of_Z 150)) Expense
    (Some "Subscriptions") (Samples.noon 2024 3 10) (Some (Samples.uuids 0)).

(** The February rent, one day earlier. *)
Definition rentDayBefore : Transaction :=
  mkTransaction (UUID 202) "Rent" (Finite (Qc_of_Z 1200)) Expense
    (Some "Household") (Samples.noon 2024 1 14) (Some Samples.rentGroup).

(** Budgets with an entry for February 2024 only. *)
Definition februaryBudgets : gmap string Budget :=
  {["2024-02" := Samples.storedBudget]}.

End ViewSamples.

(** * Properties *)

Set Default Proof Using "Type".

(** ** Calendar arithmetic *)
Module JSDateFacts.
Import JSDate.
Local Open Scope Z_scope.

Ltac zdiv := Z.div_mod_to_equations; lia.

Lemma DayFromYear_succ y : DayFromYear (y + 1) = DayFromYear y + DaysInYear y.
Proof. unfold DayFromYear, DaysInYear. repeat case_decide; zdiv. Qed.

Lemma DayFromYear_mono y1 y2 : y1 < y2 → DayFromYear y1 < DayFromYear y2.
Proof. unfold DayFromYear. zdiv. Qed.

Lemma YearFromDay_spec d :
  DayFromYear (YearFromDay d) ≤ d < DayFromYear (YearFromDay d + 1).
Proof.
  unfold YearFromDay; cbv zeta.
  repeat case_decide; unfold DayFromYear in *; zdiv.
Qed.

Lemma YearFromDay_unique d y :
  DayFromYear y ≤ d < DayFromYear (y + 1) → YearFromDay d = y.
Proof.
  intros Hy. pose proof (YearFromDay_spec d) as Hd.
  destruct (Z.lt_trichotomy (YearFromDay d) y) as [Hlt|[Heq|Hgt]]; [|done|].
  - assert (DayFromYear (YearFromDay d + 1) ≤ DayFromYear y).
    { destruct (decide (YearFromDay d + 1 = y)) as [->|]; [done|].
      apply Z.lt_le_incl, DayFromYear_mono. lia. }
    lia.
  - assert (DayFromYear (y + 1) ≤ DayFromYear (YearFromDay d)).
    { destruct (decide (y + 1 = YearFromDay d)) as [->|]; [done|].
      apply Z.lt_le_incl, DayFromYear_mono. lia. }
    lia.
Qed.

Lemma LeapOfYear_range y : 0 ≤ LeapOfYear y ≤ 1.
Proof. unfold LeapOfYear. case_decide; lia. Qed.

Lemma DaysInYear_leap y : DaysInYear y = 365 + LeapOfYear y.
Proof. unfold LeapOfYear, DaysInYear. repeat case_decide; lia. Qed.

Lemma DayWithinYear_range t :
  0 ≤ DayWithinYear t < 365 + InLeapYear t.
Proof.
  unfold DayWithinYear, InLeapYear, YearFromTime.
  pose proof (YearFromDay_spec (Day t)) as H.
  rewrite DayFromYear_succ, DaysInYear_leap in H. lia.
Qed.

Lemma MonthFromTime_range t : 0 ≤ MonthFromTime t ≤ 11.
Proof.
  unfold MonthFromTime, MonthFromDayWithinYear. repeat case_decide; lia.
Qed.

Lemma DateFromTime_range t :
  1 ≤ DateFromTime t ≤ DaysInMonth (InLeapYear t) (MonthFromTime t).
Proof.
  unfold DateFromTime, MonthFromTime.
  pose proof (DayWithinYear_range t) as Hd.
  pose proof (LeapOfYear_range (YearFromTime t)) as Hl.
  fold (InLeapYear t) in Hl.
  unfold MonthFromDayWithinYear.
  repeat case_decide; cbn [DaysBeforeMonth DaysInMonth]; lia.
Qed.

(** The month table and [DaysBeforeMonth] are inverse to each other. *)
Lemma MonthFromDayWithinYear_before leap mn dt :
  0 ≤ leap ≤ 1 → 0 ≤ mn ≤ 11 → 1 ≤ dt ≤ DaysInMonth leap mn →
  MonthFromDayWithinYear leap (DaysBeforeMonth leap mn + dt - 1) = mn.
Proof.
  intros Hl Hm Hd.
  assert (mn = 0 ∨ mn = 1 ∨ mn = 2 ∨ mn = 3 ∨ mn = 4 ∨ mn = 5 ∨ mn = 6
          ∨ mn = 7 ∨ mn = 8 ∨ mn = 9 ∨ mn = 10 ∨ mn = 11) as Hcases by lia.
  unfold MonthFromDayWithinYear.
  repeat (destruct Hcases as [->|Hcases]); [..|subst mn];
    cbn [DaysBeforeMonth DaysInMonth] in *; repeat case_decide; lia.
Qed.

Lemma DaysBeforeMonth_bound leap mn dt :
  0 ≤ leap ≤ 1 → 0 ≤ mn ≤ 11 → 1 ≤ dt ≤ DaysInMonth leap mn →
  0 ≤ DaysBeforeMonth leap mn + dt - 1 < 365 + leap.
Proof.
  intros Hl Hm Hd.
  assert (mn = 0 ∨ mn = 1 ∨ mn = 2 ∨ mn = 3 ∨ mn = 4 ∨ mn = 5 ∨ mn = 6
          ∨ mn = 7 ∨ mn = 8 ∨ mn = 9 ∨ mn = 10 ∨ mn = 11) as Hcases by lia.
  repeat (destruct Hcases as [->|Hcases]); [..|subst mn];
    cbn [DaysBeforeMonth DaysInMonth] in *; lia.
Qed.

Lemma Day_MakeDate day time :
  0 ≤ time < msPerDay → Day (MakeDate day time) = day.
Proof. unfold Day, MakeDate, msPerDay. intros. zdiv. Qed.

Lemma TimeWithinDay_MakeDate day time :
  0 ≤ time < msPerDay → TimeWithinDay (MakeDate day time) = time.
Proof. unfold TimeWithinDay, MakeDate, msPerDay. intros. zdiv. Qed.

Lemma TimeWithinDay_range t : 0 ≤ TimeWithinDay t < msPerDay.
Proof. unfold TimeWithinDay, msPerDay. zdiv. Qed.

(** A civil date that exists is recovered from the time value built from
    it: year, month, day of the month and time of the day. *)
Lemma civil_of_MakeDate y mn dt time :
  0 ≤ mn ≤ 11 → 1 ≤ dt ≤ DaysInMonth (LeapOfYear y) mn →
  0 ≤ time < msPerDay →
  let t := MakeDate (MakeDay y mn dt) time in
  YearFromTime t = y ∧ MonthFromTime t = mn ∧ DateFromTime t = dt
  ∧ TimeWithinDay t = time.
Proof.
  intros Hm Hd Ht t.
  pose proof (LeapOfYear_range y) as Hl.
  pose proof (DaysBeforeMonth_bound _ _ _ Hl Hm Hd) as Hb.
  assert (MakeDay y mn dt
          = DayFromYear y + (DaysBeforeMonth (LeapOfYear y) mn + dt - 1))
    as HMD.
  { unfold MakeDay; cbv zeta.
    replace (mn `div` 12) with 0 by zdiv.
    replace (mn `mod` 12) with mn by zdiv.
    rewrite Z.add_0_r. lia. }
  assert (YearFromTime t = y) as Hy.
  { unfold YearFromTime, t. rewrite Day_MakeDate by done.
    apply YearFromDay_unique.
    rewrite DayFromYear_succ, DaysInYear_leap, HMD. lia. }
  assert (DayWithinYear t = DaysBeforeMonth (LeapOfYear y) mn + dt - 1)
    as Hw.
  { unfold DayWithinYear. rewrite Hy. unfold t.
    rewrite Day_MakeDate by done. lia. }
  assert (MonthFromTime t = mn) as HM.
  { unfold MonthFromTime, InLeapYear. rewrite Hy, Hw.
    by apply MonthFromDayWithinYear_before. }
  split_and!; [done|done| |by apply TimeWithinDay_MakeDate].
  unfold DateFromTime, InLeapYear. rewrite HM, Hy, Hw. lia.
Qed.


(** A time value is rebuilt from its own civil fields. *)
Lemma MakeDate_civil t :
  MakeDate (MakeDay (YearFromTime t) (MonthFromTime t) (DateFromTime t))
           (TimeWithinDay t) = t.
Proof.
  pose proof (MonthFromTime_range t) as Hm.
  unfold MakeDay; cbv zeta.
  replace (MonthFromTime t `div` 12) with 0 by zdiv.
  replace (MonthFromTime t `mod` 12) with (MonthFromTime t) by zdiv.
  rewrite Z.add_0_r. fold (InLeapYear t).
  unfold DateFromTime, DayWithinYear, MakeDate, Day, TimeWithinDay, msPerDay.
  zdiv.
Qed.

Lemma MakeDay_carry year month date :
  MakeDay year month date
  = MakeDay (year + month `div` 12) (month `mod` 12) date.
Proof.
  unfold MakeDay; cbv zeta.
  replace ((month `mod` 12) `div` 12) with 0 by zdiv.
  replace ((month `mod` 12) `mod` 12) with (month `mod` 12) by zdiv.
  by rewrite Z.add_0_r.
Qed.

Lemma DaysInMonth_lower leap mn : 0 ≤ leap → 28 ≤ DaysInMonth leap mn.
Proof.
  intros. unfold DaysInMonth. repeat case_match; lia.
Qed.

(** The day number of a time value is rebuilt from its civil date. *)
Lemma MakeDay_civil t :
  MakeDay (YearFromTime t) (MonthFromTime t) (DateFromTime t) = Day t.
Proof.
  pose proof (MonthFromTime_range t) as Hm.
  unfold MakeDay; cbv zeta.
  replace (MonthFromTime t `div` 12) with 0 by zdiv.
  replace (MonthFromTime t `mod` 12) with (MonthFromTime t) by zdiv.
  rewrite Z.add_0_r. fold (InLeapYear t).
  unfold DateFromTime, DayWithinYear. lia.
Qed.

(** The year, the month and the day of the month depend on the day
    number only. *)
Lemma civil_of_Day t t' :
  Day t = Day t' →
  YearFromTime t = YearFromTime t' ∧ MonthFromTime t = MonthFromTime t'
  ∧ DateFromTime t = DateFromTime t'.
Proof.
  intros Hday.
  assert (YearFromTime t = YearFromTime t') as Hy
    by (unfold YearFromTime; by rewrite Hday).
  assert (DayWithinYear t = DayWithinYear t') as Hw
    by (unfold DayWithinYear; by rewrite Hday, Hy).
  assert (MonthFromTime t = MonthFromTime t') as Hm
    by (unfold MonthFromTime, InLeapYear; by rewrite Hy, Hw).
  split_and!; [done..|].
  unfold DateFromTime, InLeapYear. by rewrite Hw, Hm, Hy.
Qed.

(** One month later is at least 28 days later. *)
Lemma MakeDay_next_month year month date :
  MakeDay year month date + 28 ≤ MakeDay year (month + 1) date.
Proof.
  unfold MakeDay; cbv zeta.
  pose proof (LeapOfYear_range (year + month `div` 12)) as Hl.
  assert (month `mod` 12 = 0 ∨ month `mod` 12 = 1 ∨ month `mod` 12 = 2
          ∨ month `mod` 12 = 3 ∨ month `mod` 12 = 4 ∨ month `mod` 12 = 5
          ∨ month `mod` 12 = 6 ∨ month `mod` 12 = 7 ∨ month `mod` 12 = 8
          ∨ month `mod` 12 = 9 ∨ month `mod` 12 = 10
          ∨ month `mod` 12 = 11) as Hcases by zdiv.
  destruct (decide (month `mod` 12 = 11)) as [Hr|Hr].
  - replace ((month + 1) `div` 12) with (month `div` 12 + 1) by zdiv.
    replace ((month + 1) `mod` 12) with 0 by zdiv.
    rewrite Hr, Z.add_assoc, DayFromYear_succ, DaysInYear_leap.
    cbn [DaysBeforeMonth]. lia.
  - replace ((month + 1) `div` 12) with (month `div` 12) by zdiv.
    replace ((month + 1) `mod` 12) with (month `mod` 12 + 1) by zdiv.
    repeat (destruct Hcases as [Hcases|Hcases];
            [rewrite Hcases; simpl (DaysBeforeMonth _ _); lia|]).
    done.
Qed.

Lemma MakeDay_later_month year month date i :
  0 ≤ i → MakeDay year month date ≤ MakeDay year (month + i) date.
Proof.
  revert i. apply natlike_ind.
  - by rewrite Z.add_0_r.
  - intros i Hi IH.
    pose proof (MakeDay_next_month year (month + i) date).
    replace (month + Z.succ i) with (month + i + 1) by lia. lia.
Qed.

Section LocalTime.
Variable LocalTZA : Z.

Lemma LocalTime_UTC t : LocalTime LocalTZA (UTC LocalTZA t) = t.
Proof. unfold LocalTime, UTC. lia. Qed.

(** [setMonth] reaches the month it names, in the year the month number
    carries to, whenever that month has the day of the month of the
    date; the time of the day is kept. *)
Lemma civil_of_setMonth t month :
  let year' := getFullYear LocalTZA t + month `div` 12 in
  let month' := month `mod` 12 in
  let t' := setMonth LocalTZA t month in
  getDate LocalTZA t ≤ DaysInMonth (LeapOfYear year') month' →
  getFullYear LocalTZA t' = year' ∧ getMonth LocalTZA t' = month'
  ∧ getDate LocalTZA t' = getDate LocalTZA t
  ∧ TimeWithinDay (LocalTime LocalTZA t')
    = TimeWithinDay (LocalTime LocalTZA t).
Proof.
  intros year' month' t' Hd.
  unfold getFullYear, getMonth, getDate, t', setMonth in *; cbv zeta.
  rewrite LocalTime_UTC, MakeDay_carry.
  apply civil_of_MakeDate.
  - unfold month'. zdiv.
  - split; [apply DateFromTime_range|done].
  - apply TimeWithinDay_range.
Qed.

Lemma civil_of_setDate t date :
  let t' := setDate LocalTZA t date in
  1 ≤ date ≤ 28 →
  getFullYear LocalTZA t' = getFullYear LocalTZA t
  ∧ getMonth LocalTZA t' = getMonth LocalTZA t
  ∧ getDate LocalTZA t' = date
  ∧ TimeWithinDay (LocalTime LocalTZA t')
    = TimeWithinDay (LocalTime LocalTZA t).
Proof.
  intros t' Hd.
  unfold getFullYear, getMonth, getDate, t', setDate in *; cbv zeta.
  rewrite LocalTime_UTC.
  apply civil_of_MakeDate.
  - apply MonthFromTime_range.
  - pose proof (DaysInMonth_lower
                  (LeapOfYear (YearFromTime (LocalTime LocalTZA t)))
                  (MonthFromTime (LocalTime LocalTZA t))
                  (proj1 (LeapOfYear_range _))). lia.
  - apply TimeWithinDay_range.
Qed.

(** Setting the month a date already has changes nothing; so advancing
    by zero months is the identity. *)
Lemma setMonth_getMonth t : setMonth LocalTZA t (getMonth LocalTZA t) = t.
Proof.
  unfold setMonth, getMonth, UTC, LocalTime; cbv zeta.
  rewrite MakeDate_civil. lia.
Qed.

Lemma addMonths_zero t : addMonths LocalTZA t 0 = t.
Proof. unfold addMonths. rewrite Z.add_0_r. apply setMonth_getMonth. Qed.

(** Advancing by a number of months never moves a date back. *)
Lemma addMonths_ge t i : 0 ≤ i → t ≤ addMonths LocalTZA t i.
Proof.
  intros Hi. unfold addMonths, setMonth, getMonth; cbv zeta.
  pose proof (MakeDay_later_month (YearFromTime (LocalTime LocalTZA t))
                (MonthFromTime (LocalTime LocalTZA t))
                (DateFromTime (LocalTime LocalTZA t)) i Hi) as Hlater.
  rewrite MakeDay_civil in Hlater.
  unfold UTC, MakeDate, LocalTime, Day, TimeWithinDay, msPerDay in *. zdiv.
Qed.

End LocalTime.
End JSDateFacts.

(** ** Array methods *)
Module JSFacts.
Import JS.
Local Open Scope Z_scope.

Section Arrays.
Context {A : Type}.
Implicit Types (l : list A) (x y : A).

Lemma Array_find_Some (P : A → Prop) `{!∀ x, Decision (P x)} l x :
  Array_find P l = Some x ↔
  ∃ i, l !! i = Some x ∧ P x ∧ ∀ j y, l !! j = Some y → (j < i)%nat → ¬ P y.
Proof.
  unfold Array_find. rewrite fmap_Some. split.
  - intros [[i x'] [Hfind Hx]]. simpl in Hx. subst x'.
    exists i. by apply list_find_Some in Hfind.
  - intros [i Hi]. exists (i, x). split; [|done].
    by apply list_find_Some.
Qed.

Lemma Array_find_None (P : A → Prop) `{!∀ x, Decision (P x)} l :
  Array_find P l = None ↔ Forall (λ x, ¬ P x) l.
Proof. unfold Array_find. rewrite fmap_None. apply list_find_None. Qed.

(** In a list whose keys are pairwise distinct, looking an element up by
    its key finds that element. *)
Lemma Array_find_key {K} `{!EqDecision K} (key : A → K) l i x :
  NoDup (key <$> l) → l !! i = Some x →
  Array_find (λ y, key y = key x) l = Some x.
Proof.
  intros Hnd Hi. apply Array_find_Some. exists i. split_and!; [done..|].
  intros j y Hj Hlt Hkey.
  assert (j = i); [|lia].
  eapply NoDup_lookup; [done| |].
  - by rewrite list_lookup_fmap, Hj.
  - by rewrite list_lookup_fmap, Hi, Hkey.
Qed.

Lemma Array_find_key_None {K} `{!EqDecision K} (key : A → K) l k :
  k ∉ key <$> l → Array_find (λ y, key y = k) l = None.
Proof.
  intros Hk. apply Array_find_None, Forall_forall. intros y Hy <-.
  apply Hk, list_elem_of_fmap. eauto.
Qed.

Lemma NoDup_fmap_eq {K} (key : A → K) l x y :
  NoDup (key <$> l) → x ∈ l → y ∈ l → key x = key y → x = y.
Proof.
  intros Hnd [i Hi]%list_elem_of_lookup [j Hj]%list_elem_of_lookup Hkey.
  assert (i = j) as ->; [|congruence].
  eapply NoDup_lookup; [done| |].
  - by rewrite list_lookup_fmap, Hi.
  - by rewrite list_lookup_fmap, Hj, Hkey.
Qed.

(** *** Sorting by a numeric key *)
Variable key : A → Z.
Local Abbreviation compareFn := (λ a b : A, key a - key b).

Lemma Array_sort_insert_Permutation x l :
  Array_sort_insert compareFn x l ≡ₚ x :: l.
Proof.
  induction l as [|y l IH]; simpl; [done|].
  case_decide; [done|]. by rewrite IH, Permutation_swap.
Qed.

Lemma Array_sort_Permutation l : Array_sort compareFn l ≡ₚ l.
Proof.
  induction l as [|x l IH]; simpl; [done|].
  by rewrite Array_sort_insert_Permutation, IH.
Qed.

Lemma Array_sort_insert_sorted x l :
  StronglySorted (λ a b, key a ≤ key b) l →
  StronglySorted (λ a b, key a ≤ key b) (Array_sort_insert compareFn x l).
Proof.
  induction 1 as [|y l Hl IH Hy]; simpl.
  - repeat constructor.
  - case_decide.
    + constructor; [by constructor|].
      constructor; [lia|]. eapply Forall_impl; [done|]. simpl. lia.
    + constructor; [done|].
      rewrite Array_sort_insert_Permutation. constructor; [lia|done].
Qed.

Lemma Array_sort_sorted l :
  StronglySorted (λ a b, key a ≤ key b) (Array_sort compareFn l).
Proof.
  induction l as [|x l IH]; simpl; [constructor|].
  by apply Array_sort_insert_sorted.
Qed.

(** The sort is stable: the elements with one key keep their order. *)
Lemma Array_sort_insert_stable k x l :
  StronglySorted (λ a b, key a ≤ key b) l →
  filter (λ a, key a = k) (Array_sort_insert compareFn x l)
  = filter (λ a, key a = k) (x :: l).
Proof.
  induction 1 as [|y l Hl IH Hy]; simpl; [done|].
  case_decide as Hxy; [done|].
  rewrite (filter_cons _ y), IH, !filter_cons.
  destruct (decide (key y = k)), (decide (key x = k)); try done. lia.
Qed.

Lemma Array_sort_stable k l :
  filter (λ a, key a = k) (Array_sort compareFn l)
  = filter (λ a, key a = k) l.
Proof.
  induction l as [|x l IH]; simpl; [done|].
  rewrite Array_sort_insert_stable by apply Array_sort_sorted.
  by rewrite !filter_cons, IH.
Qed.

End Arrays.
End JSFacts.

(** ** The budget editor *)
Module BudgetSetupFacts.
Import Model JS BudgetSetup.

Lemma assignFrom_lookup (source target : gmap string number)
    (cat cat' : string) :
  assignFrom source cat target !! cat'
  = if decide (cat = cat') then source !! cat' else target !! cat'.
Proof.
  unfold assignFrom. case_decide as Hcat.
  - subst cat'. destruct (source !! cat) eqn:Hsource.
    + by rewrite lookup_insert_eq.
    + by rewrite lookup_delete_eq.
  - destruct (source !! cat).
    + by rewrite lookup_insert_ne.
    + by rewrite lookup_delete_ne.
Qed.

(** The loop over the recurring expense flags works category by
    category: a flagged category reads the previous month's entry, any
    other category keeps the entry it had. *)
Lemma copyRecurringExpenses_lookup (flags : gmap string bool)
    (previous expenseBudgets : gmap string number) (cat : string) :
  copyRecurringExpenses flags previous expenseBudgets !! cat
  = if flagSet (flags !! cat) then previous !! cat
    else expenseBudgets !! cat.
Proof.
  unfold copyRecurringExpenses. revert cat.
  apply (map_fold_weak_ind
           (λ acc (m : gmap string bool),
              ∀ cat, acc !! cat = if flagSet (m !! cat) then previous !! cat
                                  else expenseBudgets !! cat)).
  - intros cat. by rewrite lookup_empty.
  - intros cat' flag m acc Hfresh IH cat.
    destruct (decide (cat' = cat)) as [->|Hne].
    + rewrite lookup_insert_eq. simpl. destruct flag.
      * by rewrite assignFrom_lookup, decide_True.
      * by rewrite IH, Hfresh.
    + rewrite lookup_insert_ne by done. destruct flag; [|done].
      by rewrite assignFrom_lookup, decide_False.
Qed.

(** C4, as the code has it.  The editor opens on the budget it is given
    ([initialBudget]: the stored budget of the month, or [emptyBudget]
    when there is none), unless that budget has no recurring map or an
    empty one and the previous month has a budget with a recurring map.
    In that case the income goal, the savings goal and each expense
    category take the previous month's value when their flag is set in
    the previous recurring map and the value of [initialBudget]
    otherwise, and the previous recurring map becomes the recurring
    state of the editor. *)
Theorem onOpen_carry_forward (initialBudget : Budget)
    (previousBudget : option Budget) :
  let isInitialDefault :=
    match recurring initialBudget with
    | None => true
    | Some r => Recurring.hasNoKeys r
    end in
  let opened := onOpen initialBudget previousBudget in
  match previousBudget ≫= (λ previous, pair previous <$> recurring previous),
        isInitialDefault with
  | Some (previous, previousRecurring), true =>
      incomeGoal opened.1
      = (if flagSet (Recurring.incomeGoal previousRecurring)
         then incomeGoal previous else incomeGoal initialBudget)
      ∧ savingsGoal opened.1
        = (if flagSet (Recurring.savingsGoal previousRecurring)
           then savingsGoal previous else savingsGoal initialBudget)
      ∧ (∀ cat,
           expenseBudgets opened.1 !! cat
           = if flagSet (Recurring.expenseBudgets previousRecurring
                           ≫= (.!! cat))
             then expenseBudgets previous !! cat
             else expenseBudgets initialBudget !! cat)
      ∧ opened.2 = previousRecurring
  | _, _ =>
      opened
      = (initialBudget, default Recurring.empty (recurring initialBudget))
  end.
Proof.
  intros isInitialDefault opened. unfold opened, onOpen.
  fold isInitialDefault.
  destruct previousBudget as [previous|]; simpl; [|done].
  destruct (recurring previous) as [previousRecurring|]; simpl; [|done].
  destruct isInitialDefault; [|done]. simpl.
  split_and!; try done.
  intros cat.
  destruct (Recurring.expenseBudgets previousRecurring) as [flags|]; simpl.
  - apply copyRecurringExpenses_lookup.
  - done.
Qed.

(** C4 as the specification words it fails on a month whose saved
    budget has an empty recurring map: the income goal is not flagged in
    the previous month, yet the draft keeps the saved 7000 instead of
    taking the built-in default 5000. *)
Lemma carry_forward_not_default :
  let previousRecurring :=
    Recurring.mk None (Some true)
      (Some {["Groceries" := true; "Travel" := false]}) in
  let opened := onOpen Samples.storedBudget (Some Samples.lastMonthBudget) in
  recurring Samples.storedBudget = Some Recurring.empty
  ∧ recurring Samples.lastMonthBudget = Some previousRecurring
  ∧ incomeGoal App.emptyBudget = Finite (Qc_of_Z 5000)
  ∧ incomeGoal opened.1 = Finite (Qc_of_Z 7000)
  ∧ incomeGoal opened.1
    ≠ (if flagSet (Recurring.incomeGoal previousRecurring)
       then incomeGoal Samples.lastMonthBudget
       else incomeGoal App.emptyBudget).
Proof.
  intros previousRecurring opened.
  split_and!; [reflexivity..|]. compute_done.
Qed.

(** C4 on the same budgets: the savings goal and the groceries
    come from the previous month, the income goal and the travel budget
    from the saved budget. *)
Lemma onOpen_carry_forward_witness :
  let opened := onOpen Samples.storedBudget (Some Samples.lastMonthBudget) in
  incomeGoal opened.1 = Finite (Qc_of_Z 7000)
  ∧ savingsGoal opened.1 = Finite (Qc_of_Z 800)
  ∧ expenseBudgets opened.1 !! "Groceries" = Some (Finite (Qc_of_Z 900))
  ∧ expenseBudgets opened.1 !! "Travel" = Some (Finite (Qc_of_Z 0))
  ∧ opened.2 = Recurring.mk None (Some true)
                 (Some {["Groceries" := true; "Travel" := false]}).
Proof.
  intros opened.
  destruct (onOpen_carry_forward Samples.storedBudget
              (Some Samples.lastMonthBudget))
    as (Hincome & Hsavings & Hexpenses & Hrecurring).
  split_and!; [exact Hincome|exact Hsavings| | |exact Hrecurring].
  - exact (Hexpenses "Groceries").
  - exact (Hexpenses "Travel").
Defined.

End BudgetSetupFacts.

(** ** The handlers of [App] *)
Module AppFacts.
Import Model JS JSDate JSDateFacts JSFacts App.
Local Open Scope Z_scope.

Section Handlers.
Variable LocalTZA : Z.

Local Abbreviation getFullYear := (JSDate.getFullYear LocalTZA).
Local Abbreviation getMonth := (JSDate.getMonth LocalTZA).
Local Abbreviation getDate := (JSDate.getDate LocalTZA).
Local Abbreviation addMonths := (JSDate.addMonths LocalTZA).

(** *** Month navigation and month keys *)

(** C10. [handleMonthChange] first sets the day of the month to 1 and
    then shifts the month, so from every date, the 29th to the 31st
    included, it lands on the first day of the calendar month right after
    (direction [next]) or right before (any other direction) the month of
    the date, with the year carried over December and January. *)
Theorem handleMonthChange_adjacent_month (direction : string)
    (currentDate : Z) :
  let year := getFullYear currentDate in
  let month := getMonth currentDate in
  let newDate := handleMonthChange LocalTZA direction currentDate in
  (getFullYear newDate, getMonth newDate)
  = (if decide (direction = "next") then nextMonth year month
     else prevMonth year month)
  ∧ getDate newDate = 1.
Proof.
  intros year month newDate.
  unfold newDate, handleMonthChange; cbv zeta.
  destruct (civil_of_setDate LocalTZA currentDate 1) as (Hy & Hm & Hd & _);
    [lia|].
  set (first := setDate LocalTZA currentDate 1) in *.
  set (delta := if decide (direction = "next") then 1 else -1).
  destruct (civil_of_setMonth LocalTZA first (getMonth first + delta))
    as (Hy' & Hm' & Hd' & _).
  { rewrite Hd. pose proof (LeapOfYear_range
      (getFullYear first + (getMonth first + delta) `div` 12)) as [Hl _].
    pose proof (DaysInMonth_lower _ ((getMonth first + delta) `mod` 12) Hl).
    lia. }
  rewrite Hy', Hm', Hd', Hy, Hm, Hd. split; [|done].
  fold year month.
  assert (0 ≤ month ≤ 11) by apply MonthFromTime_range.
  unfold delta, nextMonth, prevMonth.
  repeat case_decide; f_equal; zdiv.
Qed.

(** The month keys are the ones of the month of the date and of the
    month before it as long as the day of the month is at most 28. *)
Lemma monthKeys_small_day (currentDate : Z) :
  getDate currentDate ≤ 28 →
  monthKeys LocalTZA currentDate
  = mkMonthKeys
      (monthKey (getFullYear currentDate) (getMonth currentDate))
      (monthKey (prevMonth (getFullYear currentDate)
                   (getMonth currentDate)).1
                (prevMonth (getFullYear currentDate)
                   (getMonth currentDate)).2).
Proof.
  intros Hd. unfold monthKeys; cbv zeta.
  destruct (civil_of_setMonth LocalTZA currentDate
              (getMonth currentDate - 1)) as (Hy' & Hm' & _).
  { pose proof (LeapOfYear_range
      (getFullYear currentDate + (getMonth currentDate - 1) `div` 12))
      as [Hl _].
    pose proof (DaysInMonth_lower _
      ((getMonth currentDate - 1) `mod` 12) Hl).
    lia. }
  rewrite Hy', Hm'.
  assert (0 ≤ getMonth currentDate ≤ 11) by apply MonthFromTime_range.
  unfold prevMonth. case_decide; simpl; do 2 f_equal; zdiv.
Qed.

(** *** Updates and deletions that leave the other transactions alone *)

Lemma fmap_replace_absent (transactions : list Transaction)
    (updatedTransaction : Transaction) :
  id updatedTransaction ∉ id <$> transactions →
  (λ t, if decide (id t = id updatedTransaction) then updatedTransaction
        else t) <$> transactions = transactions.
Proof.
  intros Habsent. rewrite <-(list_fmap_id transactions) at 2.
  apply list_fmap_ext. intros i t Ht. case_decide as Heq; [|done].
  destruct Habsent. rewrite <-Heq. apply list_elem_of_fmap.
  exists t. split; [done|]. by eapply list_elem_of_lookup_2.
Qed.

Lemma filter_other_ids_absent (transactions : list Transaction) (id' : uuid) :
  id' ∉ id <$> transactions →
  filter (λ t, id t ≠ id') transactions = transactions.
Proof.
  induction transactions as [|t l IH]; [done|].
  rewrite fmap_cons, not_elem_of_cons. intros [Hne Hl].
  rewrite filter_cons_True by done. by rewrite IH.
Qed.

(** C7. An update (whatever the scope) and a deletion (whatever the
    group id passed and the answer to the confirmation) that name an id
    no transaction of the list has return the list as it is. *)
Theorem missing_id_is_noop (transactions : list Transaction) (id' : uuid) :
  id' ∉ id <$> transactions →
  (∀ updatedTransaction scope,
     id updatedTransaction = id' →
     handleUpdateTransaction LocalTZA transactions updatedTransaction scope
     = transactions)
  ∧ (∀ recurringId' confirm,
       handleDeleteTransaction transactions id' recurringId' confirm
       = transactions).
Proof.
  intros Habsent. split.
  - intros u scope <-. unfold handleUpdateTransaction, setState.
    case_decide.
    + by rewrite Array_find_key_None.
    + by apply fmap_replace_absent.
  - intros rid confirm. unfold handleDeleteTransaction, setState.
    destruct rid as [g|], confirm;
      rewrite ?Array_find_key_None by done;
      auto using filter_other_ids_absent.
Qed.

(** C3. Deleting a listed transaction [target], the way its delete
    button does (with its id and its group id), keeps the order of the
    list and removes exactly: the transactions of the group of [target]
    dated at or after [target], when [target] has a group id and the
    dialog is confirmed; [target] alone otherwise. *)
Theorem handleDeleteTransaction_removes (transactions : list Transaction)
    (target : Transaction) (confirm : bool) :
  NoDup (id <$> transactions) → target ∈ transactions →
  let result :=
    handleDeleteTransaction transactions (id target) (recurringId target)
      confirm in
  sublist result transactions
  ∧ ∀ t, t ∈ result ↔
         t ∈ transactions
         ∧ match recurringId target, confirm with
           | Some g, true =>
               ¬ (recurringId t = Some g ∧ date target ≤ date t)
           | _, _ => t ≠ target
           end.
Proof.
  intros Hnd Htarget result.
  assert (∀ t, t ∈ filter (λ t, id t ≠ id target) transactions
               ↔ t ∈ transactions ∧ t ≠ target) as Hone.
  { intros t. rewrite list_elem_of_filter. split.
    - intros [Hne Ht]. split; [done|]. by intros ->.
    - intros [Ht Hne]. split; [|done]. intros Hid. apply Hne.
      by eapply (NoDup_fmap_eq id). }
  apply list_elem_of_lookup in Htarget as [i Hi].
  unfold result, handleDeleteTransaction, setState.
  destruct (recurringId target) as [g|] eqn:Hg; [destruct confirm|].
  - rewrite (Array_find_key id transactions i target) by done.
    split; [apply sublist_filter|].
    intros t. rewrite list_elem_of_filter. tauto.
  - split; [apply sublist_filter|done].
  - split; [apply sublist_filter|done].
Qed.

(** An update that does not take the [future] branch puts the edited
    transaction in the place of the one it was made from. *)
Lemma handleUpdateTransaction_single (transactions : list Transaction)
    (original updatedTransaction : Transaction) (scope : string) :
  NoDup (id <$> transactions) → original ∈ transactions →
  id updatedTransaction = id original →
  scope ≠ "future" ∨ recurringId updatedTransaction = None →
  let result :=
    handleUpdateTransaction LocalTZA transactions updatedTransaction scope in
  length result = length transactions
  ∧ ∀ i t, transactions !! i = Some t →
           result !! i
           = Some (if decide (t = original) then updatedTransaction else t).
Proof.
  intros Hnd Horig Hid Hscope result.
  unfold result, handleUpdateTransaction, setState.
  case_decide as Hfuture.
  { destruct Hfuture as [? [g Hg]]. destruct Hscope; congruence. }
  split; [by rewrite length_fmap|].
  intros i t Ht. rewrite list_lookup_fmap, Ht. simpl. f_equal.
  rewrite Hid. destruct (decide (t = original)) as [->|Hne].
  - by rewrite decide_True.
  - rewrite decide_False; [done|]. intros Heq. apply Hne.
    eapply (NoDup_fmap_eq id); [done| |done..].
    by eapply list_elem_of_lookup_2.
Qed.

(** *** Updating the future occurrences of a group *)



(** Occurrences with the same date keep the order of the list. *)
Lemma futureTransactions_stable (recurringId' : option uuid)
    (originalTransactionDate T : Z) (prev : list Transaction) :
  filter (λ t, date t = T)
    (futureTransactions recurringId' originalTransactionDate prev)
  = filter (λ t, date t = T)
      (filter (λ t, recurringId t = recurringId'
                    ∧ originalTransactionDate ≤ date t) prev).
Proof. apply Array_sort_stable. Qed.


(** *** Adding transactions *)

(** The results of the successive calls of [uuidv4()]. *)
Variable uuids : nat → uuid.

(** The loop of [handleAddTransaction] appends one occurrence per round:
    round [k] draws [uuids (n + k)] and dates its occurrence [i0 + k]
    months after the draft. *)
Lemma pushOccurrences_eq (transaction : Draft.t) (g : uuid)
    (iterations i0 : nat) (newTransactions : list Transaction) (n : nat) :
  pushOccurrences LocalTZA uuids transaction g iterations (Z.of_nat i0)
    newTransactions n
  = (newTransactions
     ++ ((λ k, mkTransaction (uuids (n + k)) (Draft.description transaction)
                 (Draft.amount transaction) (Draft.type transaction)
                 (Draft.category transaction)
                 (addMonths (Draft.date transaction) (Z.of_nat (i0 + k)))
                 (Some g))
         <$> seq 0 iterations),
     (n + iterations)%nat).
Proof.
  unfold JSDate.addMonths. revert i0 newTransactions n.
  induction iterations as [|iterations IH]; intros i0 acc n.
  - simpl. by rewrite app_nil_r, Nat.add_0_r.
  - cbn [pushOccurrences seq]. rewrite fmap_cons.
    unfold mbind, Gen_bind, uuidv4.
    replace (Z.of_nat i0 + 1) with (Z.of_nat (S i0)) by lia.
    rewrite IH, <-app_assoc. cbn [app]. rewrite !Nat.add_0_r.
    f_equal; [|lia]. do 2 f_equal.
    rewrite <-fmap_S_seq, <-list_fmap_compose.
    apply list_fmap_ext. intros ? k _. simpl.
    by rewrite !Nat.add_succ_r.
Qed.

(** What [handleAddTransaction] appends, in closed form. *)
Lemma handleAddTransaction_eq (transactions : list Transaction)
    (transaction : Draft.t) (recurrence : Z) (n : nat) :
  handleAddTransaction LocalTZA uuids transactions transaction recurrence n
  = if decide (0 < recurrence) then
      (transactions
       ++ ((λ k, mkTransaction (uuids (S n + k))
                   (Draft.description transaction)
                   (Draft.amount transaction) (Draft.type transaction)
                   (Draft.category transaction)
                   (addMonths (Draft.date transaction) (Z.of_nat k))
                   (Some (uuids n)))
           <$> seq 0 (Z.to_nat (recurrence + 1))),
       (S n + Z.to_nat (recurrence + 1))%nat)
    else
      (transactions
       ++ [mkTransaction (uuids n) (Draft.description transaction)
             (Draft.amount transaction) (Draft.type transaction)
             (Draft.category transaction) (Draft.date transaction) None],
       S n).
Proof.
  unfold handleAddTransaction. case_decide; [|done].
  unfold mbind, Gen_bind, uuidv4, mret, Gen_ret, setState.
  pose proof (pushOccurrences_eq transaction (uuids n)
                (Z.to_nat (recurrence + 1)) 0 [] (S n)) as Hloop.
  change (Z.of_nat 0) with 0 in Hloop. by rewrite Hloop.
Qed.

(** C1. Provided the identifiers that [uuidv4] returns during the call
    are pairwise distinct and not in use, [handleAddTransaction] keeps
    the list and appends new transactions, with distinct new ids and the
    description, amount, type and category of the draft.  With a repeat
    count [R <= 0] it appends one transaction, without group id, at the
    date of the draft.  With [R >= 1] it appends [R + 1] transactions
    that share one new group id; the one at index [i] is dated
    [setMonth(getMonth() + i)] after the draft: at the date of the draft
    for [i = 0], and in the calendar month [i] months later, on the same
    day of the month, whenever that month has such a day. *)
Theorem handleAddTransaction_appends (transactions : list Transaction)
    (draft : Draft.t) (R : Z) (n : nat) :
  let calls := if decide (0 < R) then (Z.to_nat R + 2)%nat else 1%nat in
  let drawn := uuids <$> seq n calls in
  NoDup drawn →
  Forall (λ u, (u ∉ id <$> transactions)
               ∧ (Some u ∉ recurringId <$> transactions)) drawn →
  ∃ new,
    handleAddTransaction LocalTZA uuids transactions draft R n
    = (transactions ++ new, (n + calls)%nat)
    ∧ NoDup (id <$> new)
    ∧ Forall (λ t, (id t ∉ id <$> transactions)
                   ∧ description t = Draft.description draft
                   ∧ amount t = Draft.amount draft
                   ∧ type t = Draft.type draft
                   ∧ category t = Draft.category draft) new
    ∧ if decide (0 < R) then
        Z.of_nat (length new) = R + 1
        ∧ ∃ g, (Some g ∉ recurringId <$> transactions)
               ∧ ∀ i t, new !! i = Some t →
                   let month := getMonth (Draft.date draft) + Z.of_nat i in
                   let year' :=
                     getFullYear (Draft.date draft) + month `div` 12 in
                   recurringId t = Some g
                   ∧ date t = addMonths (Draft.date draft) (Z.of_nat i)
                   ∧ (i = 0%nat → date t = Draft.date draft)
                   ∧ (getDate (Draft.date draft)
                      ≤ DaysInMonth (LeapOfYear year') (month `mod` 12) →
                      getFullYear (date t) = year'
                      ∧ getMonth (date t) = month `mod` 12
                      ∧ getDate (date t) = getDate (Draft.date draft))
      else
        ∃ t, new = [t] ∧ recurringId t = None
             ∧ date t = Draft.date draft.
Proof.
  intros calls drawn Hnd Hfresh.
  rewrite handleAddTransaction_eq. unfold drawn, calls in *; clear drawn calls.
  destruct (decide (0 < R)) as [HR|HR].
  - replace (Z.to_nat R + 2)%nat with (S (Z.to_nat (R + 1))) in * by lia.
    set (m := Z.to_nat (R + 1)) in *.
    simpl in Hnd, Hfresh.
    apply NoDup_cons in Hnd as [_ Hnd].
    apply Forall_cons in Hfresh as [[_ Hg] Hfresh].
    eexists. split; [f_equal; lia|].
    rewrite <-list_fmap_compose.
    assert (id ∘ (λ k, mkTransaction (uuids (S n + k))
                         (Draft.description draft) (Draft.amount draft)
                         (Draft.type draft) (Draft.category draft)
                         (addMonths (Draft.date draft) (Z.of_nat k))
                         (Some (uuids n)))
            = uuids ∘ Nat.add (S n)) as -> by done.
    rewrite list_fmap_compose, fmap_add_seq, Nat.add_0_r.
    split_and!.
    + done.
    + apply Forall_fmap, Forall_forall. intros k Hk. simpl.
      split_and!; try done.
      eapply (proj1 (Forall_forall _ _) Hfresh), list_elem_of_fmap.
      exists (S n + k)%nat. split; [done|].
      apply elem_of_seq. apply elem_of_seq in Hk. lia.
    + rewrite length_fmap, length_seq. unfold m. lia.
    + exists (uuids n). split; [done|].
      intros i t. rewrite list_lookup_fmap.
      intros [k [[-> _]%lookup_seq ->]]%fmap_Some. simpl.
      split_and!; [done|done|by intros ->; apply addMonths_zero|].
      intros Hday.
      by destruct (civil_of_setMonth LocalTZA (Draft.date draft)
                     (getMonth (Draft.date draft) + Z.of_nat i) Hday)
        as (? & ? & ? & _).
  - simpl in *. apply Forall_cons in Hfresh as [[Hid _] _].
    eexists. split; [f_equal; lia|]. simpl. split_and!.
    + apply NoDup_singleton.
    + by repeat constructor.
    + by eexists.
Qed.

(** *** The identifiers of the list stay pairwise distinct

    The theorems on updates and deletions assume a list with pairwise
    distinct ids.  The handlers keep it so: an update changes no id, a
    deletion removes elements, and an addition appends identifiers that
    [uuidv4] has just drawn. *)

Lemma handleUpdateTransaction_ids (transactions : list Transaction)
    (updatedTransaction : Transaction) (scope : string) :
  id <$> handleUpdateTransaction LocalTZA transactions updatedTransaction
           scope
  = id <$> transactions.
Proof.
  unfold handleUpdateTransaction, setState.
  case_decide;
    [destruct (Array_find _ transactions) as [originalTransaction|];
       [|done]|];
    rewrite <-list_fmap_compose; apply list_fmap_ext; intros i t _; simpl.
  - destruct (Array_find _ _) as [uft|] eqn:Hfind; [|done]. simpl.
    by apply Array_find_Some in Hfind as (k & _ & Hid & _).
  - by case_decide.
Qed.

Lemma handleDeleteTransaction_sublist (transactions : list Transaction)
    (id' : uuid) (recurringId' : option uuid) (confirm : bool) :
  sublist (handleDeleteTransaction transactions id' recurringId' confirm)
    transactions.
Proof.
  unfold handleDeleteTransaction, setState.
  destruct recurringId'; [destruct confirm|]; try apply sublist_filter.
  destruct (Array_find _ transactions); [apply sublist_filter|done].
Qed.

Lemma handleDeleteTransaction_NoDup (transactions : list Transaction)
    (id' : uuid) (recurringId' : option uuid) (confirm : bool) :
  NoDup (id <$> transactions) →
  NoDup (id <$> handleDeleteTransaction transactions id' recurringId'
                  confirm).
Proof.
  intros Hnd. eapply sublist_NoDup; [done|].
  apply fmap_sublist, handleDeleteTransaction_sublist.
Qed.

Lemma handleAddTransaction_NoDup (transactions : list Transaction)
    (draft : Draft.t) (recurrence : Z) (n : nat) :
  let calls :=
    if decide (0 < recurrence) then (Z.to_nat recurrence + 2)%nat
    else 1%nat in
  NoDup (id <$> transactions) →
  NoDup (uuids <$> seq n calls) →
  Forall (λ u, u ∉ id <$> transactions) (uuids <$> seq n calls) →
  NoDup (id <$> (handleAddTransaction LocalTZA uuids transactions draft
                   recurrence n).1).
Proof.
  intros calls Hnd Hdrawn Hfresh. rewrite handleAddTransaction_eq.
  unfold calls in *; clear calls.
  destruct (decide (0 < recurrence)) as [HR|HR]; simpl.
  - replace (Z.to_nat recurrence + 2)%nat
      with (S (Z.to_nat (recurrence + 1))) in * by lia.
    simpl in Hdrawn, Hfresh.
    apply NoDup_cons in Hdrawn as [_ Hdrawn].
    apply Forall_cons in Hfresh as [_ Hfresh].
    rewrite fmap_app, <-list_fmap_compose.
    rewrite (list_fmap_ext _ (uuids ∘ Nat.add (S n)) (seq 0 _)) by done.
    rewrite list_fmap_compose, fmap_add_seq, Nat.add_0_r.
    apply NoDup_app. split_and!; [done| |done].
    intros u Hu Hu'. by apply (proj1 (Forall_forall _ _) Hfresh u).
  - simpl in Hfresh. apply Forall_cons in Hfresh as [Hfresh _].
    rewrite fmap_app. apply NoDup_app. split_and!; [done| |].
    + intros u Hu ->%list_elem_of_singleton. done.
    + apply NoDup_singleton.
Qed.

(** *** Validation in the form and in the modal *)

Variable parseFloat : string → number.

Lemma validation_rejects (description amount : string) :
  bool_decide (description = "") || negb (truthy (parseFloat amount))
  || le_zero (parseFloat amount) = true
  ↔ invalidEntry parseFloat description amount.
Proof.
  unfold invalidEntry.
  rewrite !orb_true_iff, bool_decide_eq_true, negb_true_iff.
  destruct (parseFloat amount) as [|negative|q]; simpl.
  - intuition congruence.
  - intuition congruence.
  - rewrite bool_decide_eq_false, bool_decide_eq_true.
    split; [|intuition congruence].
    intros [[?|Hq]|?]; [by left| |by right; right].
    right; right. apply dec_stable in Hq. by rewrite Hq.
Qed.

Lemma validation_accepts (description amount : string) :
  bool_decide (description = "") || negb (truthy (parseFloat amount))
  || le_zero (parseFloat amount) = false
  → description ≠ "" ∧ gt_zero (parseFloat amount) = true.
Proof.
  rewrite !orb_false_iff, bool_decide_eq_false, negb_false_iff.
  intros [[Hd Ht] Hle]. split; [done|].
  destruct (parseFloat amount) as [|negative|q]; simpl in *.
  - done.
  - by rewrite Hle.
  - apply bool_decide_eq_true. apply bool_decide_eq_false in Hle.
    by apply Qcnot_le_lt.
Qed.

(** C8. A form or modal entry with an empty description, an amount
    that does not parse to a number, or a parsed amount that is not
    positive is rejected, whatever its other fields: the handler sets the
    error message, calls neither [onAddTransaction] nor
    [onUpdateTransaction], and the list of transactions (and the
    identifier generator) stay as they are. *)
Theorem invalid_entry_rejected (transactions : list Transaction)
    (currentDate : Z) (editingTransaction : Transaction) (scope : string)
    (n : nat) (description amount : string) (type : TransactionType)
    (category : string) (isRecurring : bool) (recurrence : Z)
    (date : option (Z * Z * Z)) (formError modalError : string) :
  invalidEntry parseFloat description amount →
  let form error :=
    TransactionForm.mk description amount type category isRecurring
      recurrence error in
  let modal error :=
    EditTransactionModal.mk description amount type category date error in
  TransactionForm.handleSubmit parseFloat currentDate (form formError)
  = (form TransactionForm.errorMessage, None)
  ∧ submitTransactionForm LocalTZA uuids parseFloat transactions currentDate
      (form formError) n
    = (form TransactionForm.errorMessage, transactions, n)
  ∧ EditTransactionModal.handleUpdate parseFloat LocalTZA editingTransaction
      (modal modalError) scope
    = EditTransactionModal.Returned (modal TransactionForm.errorMessage) None
  ∧ submitEditTransactionModal LocalTZA parseFloat transactions
      editingTransaction (modal modalError) scope
    = (modal TransactionForm.errorMessage, transactions).
Proof.
  intros Hinvalid%validation_rejects form modal.
  unfold submitTransactionForm, submitEditTransactionModal.
  unfold TransactionForm.handleSubmit, EditTransactionModal.handleUpdate.
  cbv zeta. simpl. by rewrite Hinvalid.
Qed.

(** What the modal hands to [onUpdateTransaction] when it accepts the
    entry: the edited transaction with the id and the group id of the
    original, the fields of the modal, a positive amount and a category
    exactly for an expense. *)
Lemma handleUpdate_accepted
    (editingTransaction updatedTransaction : Transaction)
    (modal modal' : EditTransactionModal.state) (scope scope' : string) :
  EditTransactionModal.handleUpdate parseFloat LocalTZA editingTransaction
    modal scope
  = EditTransactionModal.Returned modal' (Some (updatedTransaction, scope')) →
  modal' = modal ∧ scope' = scope
  ∧ id updatedTransaction = id editingTransaction
  ∧ recurringId updatedTransaction = recurringId editingTransaction
  ∧ description updatedTransaction = EditTransactionModal.description modal
  ∧ amount updatedTransaction
    = parseFloat (EditTransactionModal.amount modal)
  ∧ type updatedTransaction = EditTransactionModal.type modal
  ∧ category updatedTransaction
    = (if decide (EditTransactionModal.type modal = Expense)
       then Some (EditTransactionModal.category modal) else None)
  ∧ (∃ year month day,
       EditTransactionModal.date modal = Some (year, month, day)
       ∧ date updatedTransaction
         = JSDate.setFullYear LocalTZA (date editingTransaction) year
             (month - 1) day)
  ∧ wellFormed updatedTransaction.
Proof.
  unfold EditTransactionModal.handleUpdate; cbv zeta.
  destruct (_ || _ || _) eqn:Hvalid; [done|].
  apply validation_accepts in Hvalid as [_ Hpos].
  destruct (EditTransactionModal.date modal) as [[[year month] day]|];
    [|done].
  intros [= -> <- ->]. simpl. split_and!; try done.
  - by exists year, month, day.
  - unfold wellFormed; simpl. split; [done|].
    rewrite is_Some_alt. case_decide; simpl; tauto.
Qed.

(** C6. Saving the modal with scope [this] replaces the edited
    transaction, and only it: the replacement has the fields of the
    modal (the date included) and the id and group id of the original;
    every other transaction of the list, the other members of its group
    included, stays as it is, at its place. *)
Theorem update_this_replaces_only_edited (transactions : list Transaction)
    (original updatedTransaction : Transaction)
    (modal modal' : EditTransactionModal.state) (scope' : string) :
  NoDup (id <$> transactions) → original ∈ transactions →
  EditTransactionModal.handleUpdate parseFloat LocalTZA original modal "this"
  = EditTransactionModal.Returned modal' (Some (updatedTransaction, scope')) →
  let result :=
    (submitEditTransactionModal LocalTZA parseFloat transactions original
       modal "this").2 in
  result = handleUpdateTransaction LocalTZA transactions updatedTransaction
             "this"
  ∧ id updatedTransaction = id original
  ∧ recurringId updatedTransaction = recurringId original
  ∧ description updatedTransaction = EditTransactionModal.description modal
  ∧ amount updatedTransaction
    = parseFloat (EditTransactionModal.amount modal)
  ∧ type updatedTransaction = EditTransactionModal.type modal
  ∧ category updatedTransaction
    = (if decide (EditTransactionModal.type modal = Expense)
       then Some (EditTransactionModal.category modal) else None)
  ∧ (∃ year month day,
       EditTransactionModal.date modal = Some (year, month, day)
       ∧ date updatedTransaction
         = JSDate.setFullYear LocalTZA (date original) year (month - 1) day)
  ∧ length result = length transactions
  ∧ ∀ i t, transactions !! i = Some t →
           result !! i
           = Some (if decide (t = original) then updatedTransaction else t).
Proof.
  intros Hnd Horig Hmodal result.
  pose proof (handleUpdate_accepted _ _ _ _ _ _ Hmodal)
    as (_ & -> & Hid & Hrid & Hdesc & Hamount & Htype & Hcat & Hdate & _).
  assert (result = handleUpdateTransaction LocalTZA transactions
                     updatedTransaction "this") as Hresult.
  { unfold result, submitEditTransactionModal. by rewrite Hmodal. }
  destruct (handleUpdateTransaction_single transactions original
              updatedTransaction "this") as [Hlength Hlookup];
    [done|done|done|by left|].
  rewrite Hresult. by split_and!.
Qed.

(** *** The invariant of the stored transactions *)

Lemma handleSubmit_accepted (currentDate : Z)
    (form form' : TransactionForm.state) (draft : Draft.t) (recurrence : Z) :
  TransactionForm.handleSubmit parseFloat currentDate form
  = (form', Some (draft, recurrence)) →
  gt_zero (Draft.amount draft) = true
  ∧ (is_Some (Draft.category draft) ↔ Draft.type draft = Expense).
Proof.
  unfold TransactionForm.handleSubmit; cbv zeta.
  destruct (_ || _ || _) eqn:Hvalid; [done|].
  apply validation_accepts in Hvalid as [_ Hpos].
  intros [= _ <- _]. simpl. split; [done|].
  rewrite is_Some_alt. case_decide; simpl; tauto.
Qed.

Lemma handleAddTransaction_wellFormed (transactions : list Transaction)
    (draft : Draft.t) (recurrence : Z) (n : nat) :
  Forall wellFormed transactions →
  gt_zero (Draft.amount draft) = true →
  (is_Some (Draft.category draft) ↔ Draft.type draft = Expense) →
  Forall wellFormed
    (handleAddTransaction LocalTZA uuids transactions draft recurrence n).1.
Proof.
  intros Hwf Hpos Hcat. rewrite handleAddTransaction_eq.
  case_decide; simpl; apply Forall_app; split; try done.
  - apply Forall_fmap, Forall_forall. by intros k _.
  - by apply Forall_singleton.
Qed.

Lemma handleUpdateTransaction_wellFormed (transactions : list Transaction)
    (updatedTransaction : Transaction) (scope : string) :
  Forall wellFormed transactions → wellFormed updatedTransaction →
  Forall wellFormed
    (handleUpdateTransaction LocalTZA transactions updatedTransaction scope).
Proof.
  intros Hwf Hu. unfold handleUpdateTransaction, setState.
  case_decide;
    [destruct (Array_find _ transactions) as [originalTransaction|];
       [|done]|].
  - apply Forall_fmap. eapply Forall_impl; [done|].
    intros t Ht. simpl.
    destruct (Array_find _ _) as [uft|] eqn:Hfind; [|done]. simpl.
    apply Array_find_Some in Hfind as (k & Hk & _).
    apply list_lookup_imap_Some in Hk as (t' & _ & ->).
    done.
  - apply Forall_fmap. eapply Forall_impl; [done|].
    intros t Ht. simpl. by case_decide.
Qed.

Lemma handleDeleteTransaction_wellFormed (transactions : list Transaction)
    (id' : uuid) (recurringId' : option uuid) (confirm : bool) :
  Forall wellFormed transactions →
  Forall wellFormed
    (handleDeleteTransaction transactions id' recurringId' confirm).
Proof.
  intros Hwf. unfold handleDeleteTransaction, setState.
  assert (∀ (P : Transaction → Prop) `{!∀ t, Decision (P t)},
            Forall wellFormed (filter P transactions)) as Hfilter.
  { intros P ?. rewrite Forall_forall in Hwf. apply Forall_forall.
    intros t [_ Ht]%list_elem_of_filter. auto. }
  destruct recurringId'; [destruct confirm|]; [|done..].
  by destruct (Array_find _ transactions).
Qed.

Lemma step_wellFormed (transactions transactions' : list Transaction) :
  step LocalTZA uuids parseFloat transactions transactions' →
  Forall wellFormed transactions → Forall wellFormed transactions'.
Proof.
  intros Hstep Hwf.
  destruct Hstep as [currentDate form n|editing modal scope _ _
                    |target confirm _].
  - unfold submitTransactionForm.
    destruct (TransactionForm.handleSubmit parseFloat currentDate form)
      as [form' [[draft recurrence]|]] eqn:Hsubmit; [|done].
    apply handleSubmit_accepted in Hsubmit as [Hpos Hcat].
    pose proof (handleAddTransaction_wellFormed transactions draft
                  recurrence n Hwf Hpos Hcat) as Hadd.
    unfold mbind, Gen_bind, mret, Gen_ret.
    by destruct (handleAddTransaction _ _ _ _ _ _).
  - unfold submitEditTransactionModal.
    destruct (EditTransactionModal.handleUpdate parseFloat LocalTZA editing
                modal scope) as [modal' [[u scope']|]|] eqn:Hmodal;
      [|done..].
    apply handleUpdate_accepted in Hmodal
      as (_ & _ & _ & _ & _ & _ & _ & _ & _ & Hu).
    by apply handleUpdateTransaction_wellFormed.
  - by apply handleDeleteTransaction_wellFormed.
Qed.

(** C9. Every mutation the interface offers (submitting the form with
    any repeat count, saving the modal with either scope and any type,
    deleting) keeps the invariant that each stored transaction has a
    positive amount and has a category exactly when it is an expense; so
    does every sequence of them. *)
Theorem wellFormed_preserved (transactions transactions' : list Transaction) :
  Forall wellFormed transactions →
  rtc (step LocalTZA uuids parseFloat) transactions transactions' →
  Forall wellFormed transactions'.
Proof.
  intros Hwf Hsteps. induction Hsteps as [|s1 s2 s3 Hstep _ IH]; [done|].
  eauto using step_wellFormed.
Qed.

End Handlers.

(** C5, at 2024-03-31T12:00:00Z in a zone without offset: the date is
    the 31st of March 2024, the key of its month is "2024-03" and the key
    of the month before is "2024-02", but [monthKeys] returns "2024-03"
    as the previous key too: [setMonth] to February keeps day 31, which
    rolls over into March. *)
Theorem monthKeys_end_of_month :
  let currentDate := 1711886400000 in
  (JSDate.getFullYear 0 currentDate, JSDate.getMonth 0 currentDate,
   JSDate.getDate 0 currentDate) = (2024, 2, 31)
  ∧ prevMonth 2024 2 = (2024, 1)
  ∧ monthKey 2024 1 = "2024-02"
  ∧ monthKeys 0 currentDate = mkMonthKeys "2024-03" "2024-03".
Proof. by vm_compute. Qed.

(** *** The theorems on the sample data *)

(** C1 on the sample list: a gym subscription repeated for two more
    months draws four identifiers and appends three transactions. *)
Lemma handleAddTransaction_appends_witness :
  let drawn := Samples.uuids <$> seq 0%nat 4%nat in
  NoDup drawn
  ∧ Forall (λ u, (u ∉ id <$> Samples.transactions)
                 ∧ (Some u ∉ recurringId <$> Samples.transactions)) drawn
  ∧ ∃ new,
      handleAddTransaction 0 Samples.uuids Samples.transactions
        Samples.gymDraft 2 0%nat
      = (Samples.transactions ++ new, 4%nat)
      ∧ Z.of_nat (length new) = 3.
Proof.
  intros drawn.
  assert (NoDup drawn) as Hnd by compute_done.
  assert (Forall (λ u, (u ∉ id <$> Samples.transactions)
                       ∧ (Some u ∉ recurringId <$> Samples.transactions))
            drawn) as Hfresh by compute_done.
  split_and!; [exact Hnd|exact Hfresh|].
  destruct (handleAddTransaction_appends 0 Samples.uuids
              Samples.transactions Samples.gymDraft 2 0%nat Hnd Hfresh)
    as (new & Heq & _ & _ & Hrecurring).
  exists new. split; [exact Heq|].
  destruct (decide (0 < 2)) as [_|Hfalse]; [|lia].
  exact (proj1 Hrecurring).
Defined.


(** C3 on the sample list: deleting the February rent with all its
    future occurrences. *)
Lemma handleDeleteTransaction_removes_witness :
  NoDup (id <$> Samples.transactions)
  ∧ Samples.rent 202 1 ∈ Samples.transactions
  ∧ ∀ t, t ∈ handleDeleteTransaction Samples.transactions (UUID 202)
               (Some Samples.rentGroup) true
         ↔ t ∈ Samples.transactions
           ∧ ¬ (recurringId t = Some Samples.rentGroup
                ∧ date (Samples.rent 202 1) ≤ date t).
Proof.
  assert (NoDup (id <$> Samples.transactions)) as Hnd by compute_done.
  assert (Samples.rent 202 1 ∈ Samples.transactions) as Hin by compute_done.
  split_and!; [exact Hnd|exact Hin|].
  exact (proj2 (handleDeleteTransaction_removes Samples.transactions
                  (Samples.rent 202 1) true Hnd Hin)).
Defined.

(** C6 on the sample list: saving the edited February rent for this
    entry only. *)
Lemma update_this_replaces_only_edited_witness :
  NoDup (id <$> Samples.transactions)
  ∧ Samples.rent 202 1 ∈ Samples.transactions
  ∧ EditTransactionModal.handleUpdate Samples.parseFloat 0
      (Samples.rent 202 1) Samples.rentModal "this"
    = EditTransactionModal.Returned Samples.rentModal
        (Some (Samples.editedRent, "this"))
  ∧ ∀ i t, Samples.transactions !! i = Some t →
      (submitEditTransactionModal 0 Samples.parseFloat Samples.transactions
         (Samples.rent 202 1) Samples.rentModal "this").2 !! i
      = Some (if decide (t = Samples.rent 202 1) then Samples.editedRent
              else t).
Proof.
  assert (NoDup (id <$> Samples.transactions)) as Hnd by compute_done.
  assert (Samples.rent 202 1 ∈ Samples.transactions) as Hin by compute_done.
  assert (EditTransactionModal.handleUpdate Samples.parseFloat 0
            (Samples.rent 202 1) Samples.rentModal "this"
          = EditTransactionModal.Returned Samples.rentModal
              (Some (Samples.editedRent, "this"))) as Hmodal
    by reflexivity.
  split_and!; [exact Hnd|exact Hin|exact Hmodal|].
  destruct (update_this_replaces_only_edited 0 Samples.parseFloat
              Samples.transactions (Samples.rent 202 1) Samples.editedRent
              Samples.rentModal Samples.rentModal "this" Hnd Hin Hmodal)
    as (_ & _ & _ & _ & _ & _ & _ & _ & _ & Hlookup).
  exact Hlookup.
Defined.

(** C7 on the sample list: identifier 999 is not in it. *)
Lemma missing_id_is_noop_witness :
  (UUID 999 ∉ id <$> Samples.transactions)
  ∧ handleUpdateTransaction 0 Samples.transactions
      (mkTransaction (UUID 999) "Rent" (Finite (Qc_of_Z 1300)) Expense
         (Some "Household") (Samples.noon 2024 1 20)
         (Some Samples.rentGroup))
      "future"
    = Samples.transactions
  ∧ handleDeleteTransaction Samples.transactions (UUID 999)
      (Some Samples.rentGroup) true
    = Samples.transactions.
Proof.
  assert (UUID 999 ∉ id <$> Samples.transactions) as Habsent by compute_done.
  destruct (missing_id_is_noop 0 Samples.transactions (UUID 999) Habsent)
    as [Hupdate Hdelete].
  split_and!; [exact Habsent|by apply Hupdate|apply Hdelete].
Defined.

(** C8 on the sample data: a form and a modal with a negative amount. *)
Lemma invalid_entry_rejected_witness :
  let form :=
    TransactionForm.mk "Rent" "-5" Expense "Household" false 1 "" in
  let modal :=
    EditTransactionModal.mk "Rent" "-5" Expense "Household"
      (Some (2024, 2, 20)) "" in
  invalidEntry Samples.parseFloat "Rent" "-5"
  ∧ (submitTransactionForm 0 Samples.uuids Samples.parseFloat
       Samples.transactions (Samples.noon 2024 2 10) form 0%nat).1.2
    = Samples.transactions
  ∧ (submitEditTransactionModal 0 Samples.parseFloat Samples.transactions
       (Samples.rent 202 1) modal "future").2
    = Samples.transactions.
Proof.
  intros form modal.
  assert (invalidEntry Samples.parseFloat "Rent" "-5") as Hinvalid
    by (right; right; reflexivity).
  destruct (invalid_entry_rejected 0 Samples.uuids Samples.parseFloat
              Samples.transactions (Samples.noon 2024 2 10)
              (Samples.rent 202 1) "future" 0%nat "Rent" "-5" Expense
              "Household" false 1 (Some (2024, 2, 20)) "" "" Hinvalid)
    as (_ & Hsubmit & _ & Hupdate).
  split_and!; [exact Hinvalid| |].
  - exact (f_equal (λ r, r.1.2) Hsubmit).
  - exact (f_equal snd Hupdate).
Defined.

(** C9 on the sample list: submitting the gym form, then deleting the
    February rent and its future occurrences. *)
Lemma wellFormed_preserved_witness :
  let added :=
    (submitTransactionForm 0 Samples.uuids Samples.parseFloat
       Samples.transactions (Samples.noon 2024 2 10) Samples.gymForm
       0%nat).1.2
  in
  let deleted :=
    handleDeleteTransaction added (UUID 202) (Some Samples.rentGroup) true in
  Forall wellFormed Samples.transactions
  ∧ rtc (step 0 Samples.uuids Samples.parseFloat) Samples.transactions
      deleted
  ∧ length deleted = 5%nat
  ∧ Forall wellFormed deleted.
Proof.
  intros added deleted.
  assert (Forall wellFormed Samples.transactions) as Hwf.
  { repeat constructor; simpl; rewrite is_Some_alt; done. }
  assert (rtc (step 0 Samples.uuids Samples.parseFloat)
            Samples.transactions deleted) as Hsteps.
  { eapply rtc_l; [apply step_add|].
    apply rtc_once.
    apply (step_delete 0 Samples.uuids Samples.parseFloat added
             (Samples.rent 202 1) true).
    compute_done. }
  split_and!; [exact Hwf|exact Hsteps|reflexivity|].
  exact (wellFormed_preserved 0 Samples.uuids Samples.parseFloat
           Samples.transactions deleted Hwf Hsteps).
Defined.

End AppFacts.

(** ** Month keys, navigation and saved budgets *)
Module MonthFacts.
Import Model JS JSDate JSDateFacts App AppView.
Local Open Scope Z_scope.

Lemma length_append (s t : string) :
  String.length (s +:+ t) = (String.length s + String.length t)%nat.
Proof. induction s as [|c s IH]; simpl; [done|]. by rewrite IH. Qed.

(** Two strings with suffixes of the same length are equal only if
    their prefixes and their suffixes are. *)
Lemma append_inj (s1 s2 t1 t2 : string) :
  String.length t1 = String.length t2 →
  s1 +:+ t1 = s2 +:+ t2 → s1 = s2 ∧ t1 = t2.
Proof.
  intros Hlen. revert s2.
  induction s1 as [|c1 s1 IH]; intros [|c2 s2] Heq; simpl in Heq.
  - done.
  - apply (f_equal String.length) in Heq.
    rewrite ?length_append in Heq. simpl in Heq.
    rewrite ?length_append in Heq. lia.
  - apply (f_equal String.length) in Heq.
    rewrite ?length_append in Heq. simpl in Heq.
    rewrite ?length_append in Heq. lia.
  - injection Heq as -> Heq. destruct (IH _ Heq) as [-> ->]. done.
Qed.

Ltac month_cases m :=
  let H := fresh in
  assert (m = 0 ∨ m = 1 ∨ m = 2 ∨ m = 3 ∨ m = 4 ∨ m = 5 ∨ m = 6 ∨ m = 7
          ∨ m = 8 ∨ m = 9 ∨ m = 10 ∨ m = 11) as H by lia;
  repeat (destruct H as [->|H]); [..|subst m].

Lemma monthPart_length (month : Z) :
  0 ≤ month ≤ 11 →
  String.length ("-" +:+ padStart 2 "0" (pretty (month + 1))) = 3%nat.
Proof. intros Hm. month_cases month; reflexivity. Qed.

Lemma monthPart_inj (month month' : Z) :
  0 ≤ month ≤ 11 → 0 ≤ month' ≤ 11 →
  "-" +:+ padStart 2 "0" (pretty (month + 1))
  = "-" +:+ padStart 2 "0" (pretty (month' + 1)) →
  month = month'.
Proof.
  intros Hm Hm' Heq.
  month_cases month; month_cases month';
    first [reflexivity | vm_compute in Heq; discriminate Heq].
Qed.

(** Two months have the same key only if they are the same month of the
    same year. *)
Lemma monthKey_inj (year month year' month' : Z) :
  0 ≤ month ≤ 11 → 0 ≤ month' ≤ 11 →
  monthKey year month = monthKey year' month' →
  year = year' ∧ month = month'.
Proof.
  intros Hm Hm' Heq. unfold monthKey in Heq.
  apply append_inj in Heq as [Hyear Hmonth].
  - split; [by apply (inj pretty)|by apply monthPart_inj].
  - by rewrite !monthPart_length.
Qed.

Section Months.
Variable LocalTZA : Z.

Local Abbreviation getFullYear := (JSDate.getFullYear LocalTZA).
Local Abbreviation getMonth := (JSDate.getMonth LocalTZA).
Local Abbreviation getDate := (JSDate.getDate LocalTZA).

(** The civil date that [handleMonthChange] reaches. *)
Lemma handleMonthChange_civil (direction : string) (currentDate : Z) :
  let newDate := handleMonthChange LocalTZA direction currentDate in
  let delta := if decide (direction = "next") then 1 else -1 in
  12 * getFullYear newDate + getMonth newDate
  = 12 * getFullYear currentDate + getMonth currentDate + delta
  ∧ getDate newDate = 1.
Proof.
  intros newDate delta.
  unfold newDate, handleMonthChange; cbv zeta.
  destruct (civil_of_setDate LocalTZA currentDate 1) as (Hy & Hm & Hd & _);
    [lia|].
  set (first := setDate LocalTZA currentDate 1) in *.
  fold delta.
  destruct (civil_of_setMonth LocalTZA first (getMonth first + delta))
    as (Hy' & Hm' & Hd' & _).
  { rewrite Hd. pose proof (LeapOfYear_range
      (getFullYear first + (getMonth first + delta) `div` 12)) as [Hl _].
    pose proof (DaysInMonth_lower _ ((getMonth first + delta) `mod` 12) Hl).
    lia. }
  rewrite Hy', Hm', Hd', Hy, Hm, Hd. split; [|done]. zdiv.
Qed.

Lemma getMonth_range (t : Z) : 0 ≤ getMonth t ≤ 11.
Proof. apply MonthFromTime_range. Qed.

(** Year and month are read back from the count of months. *)
Lemma month_count_inj (t t' : Z) :
  12 * getFullYear t + getMonth t = 12 * getFullYear t' + getMonth t' →
  getFullYear t = getFullYear t' ∧ getMonth t = getMonth t'.
Proof.
  pose proof (getMonth_range t). pose proof (getMonth_range t'). lia.
Qed.

Lemma currentMonthKey_monthKeys (currentDate : Z) :
  currentMonthKey (monthKeys LocalTZA currentDate)
  = monthKey (getFullYear currentDate) (getMonth currentDate).
Proof. reflexivity. Qed.

Lemma previousMonthKey_small_day (currentDate : Z) :
  getDate currentDate ≤ 28 →
  previousMonthKey (monthKeys LocalTZA currentDate)
  = monthKey (prevMonth (getFullYear currentDate) (getMonth currentDate)).1
             (prevMonth (getFullYear currentDate) (getMonth currentDate)).2.
Proof. intros Hd. by rewrite AppFacts.monthKeys_small_day. Qed.

Lemma handleMonthChange_next (currentDate : Z) :
  let newDate := handleMonthChange LocalTZA "next" currentDate in
  12 * getFullYear newDate + getMonth newDate
  = 12 * getFullYear currentDate + getMonth currentDate + 1
  ∧ getDate newDate = 1.
Proof.
  intros newDate.
  destruct (handleMonthChange_civil "next" currentDate) as [Hcount Hd].
  case_decide; done.
Qed.

(** After [next], the previous key is the key of the month left. *)
Lemma previousMonthKey_next (currentDate : Z) :
  previousMonthKey
    (monthKeys LocalTZA (handleMonthChange LocalTZA "next" currentDate))
  = currentMonthKey (monthKeys LocalTZA currentDate).
Proof.
  destruct (handleMonthChange_next currentDate) as [Hcount Hd].
  revert Hcount Hd.
  generalize (handleMonthChange LocalTZA "next" currentDate).
  intros next Hcount Hd.
  rewrite currentMonthKey_monthKeys, previousMonthKey_small_day by lia.
  pose proof (getMonth_range next) as Hm.
  pose proof (getMonth_range currentDate) as Hm'.
  assert (prevMonth (getFullYear next) (getMonth next)
          = (getFullYear currentDate, getMonth currentDate)) as ->.
  { unfold prevMonth. case_decide; f_equal; lia. }
  reflexivity.
Qed.

(** X1. After a press of a navigation button both month keys are the
    right ones, whatever the date was before: the current key is the one
    of the month navigated to and the previous key the one of the month
    before it.  In particular, after [next] the previous key is the key
    of the month that was left. *)
Theorem monthKeys_after_navigation (direction : string) (currentDate : Z) :
  let newDate := handleMonthChange LocalTZA direction currentDate in
  let year := getFullYear newDate in
  let month := getMonth newDate in
  monthKeys LocalTZA newDate
  = mkMonthKeys (monthKey year month)
      (monthKey (prevMonth year month).1 (prevMonth year month).2)
  ∧ previousMonthKey
      (monthKeys LocalTZA (handleMonthChange LocalTZA "next" currentDate))
    = currentMonthKey (monthKeys LocalTZA currentDate).
Proof.
  intros newDate year month. split; [|apply previousMonthKey_next].
  apply AppFacts.monthKeys_small_day.
  destruct (handleMonthChange_civil direction currentDate) as [_ Hd].
  fold newDate in Hd. lia.
Qed.

(** X2. Saving a budget files it under the month of the current date
    only: afterwards that month reads the saved budget, and every other
    month reads what it read before. *)
Theorem handleSaveBudget_currentBudget (budgets : gmap string Budget)
    (currentDate otherDate : Z) (newBudget : Budget) :
  currentBudget LocalTZA
    (handleSaveBudget LocalTZA budgets currentDate newBudget) otherDate
  = if decide (getFullYear otherDate = getFullYear currentDate
               ∧ getMonth otherDate = getMonth currentDate)
    then newBudget
    else currentBudget LocalTZA budgets otherDate.
Proof.
  unfold currentBudget, handleSaveBudget.
  rewrite !currentMonthKey_monthKeys.
  case_decide as Hsame.
  - destruct Hsame as [-> ->]. by rewrite lookup_insert_eq.
  - rewrite lookup_insert_ne; [done|].
    intros Hkey. apply monthKey_inj in Hkey as [? ?];
      [|apply getMonth_range..].
    by apply Hsame.
Qed.

End Months.
End MonthFacts.

(** ** What the lists show *)
Module ViewFacts.
Import Model JS JSDate JSDateFacts JSFacts App AppView MonthFacts.
Local Open Scope Z_scope.

Lemma items_Permutation (transactions : list Transaction) :
  default [] (TransactionList.items transactions) ≡ₚ transactions.
Proof.
  unfold TransactionList.items. case_decide as Hlen; simpl.
  - apply Array_sort_Permutation.
  - destruct transactions; [done|simpl in Hlen; lia].
Qed.

Lemma items_sorted (transactions : list Transaction) :
  StronglySorted (λ a b, date a ≤ date b)
    (default [] (TransactionList.items transactions)).
Proof.
  unfold TransactionList.items. case_decide; simpl.
  - apply Array_sort_sorted.
  - constructor.
Qed.

Lemma filter_by_type (transactions : list Transaction) :
  filter (λ t, type t = Income) transactions
  ++ filter (λ t, type t = Expense) transactions
  ≡ₚ transactions.
Proof.
  rewrite (list_filter_iff (λ t, type t = Expense) (λ t, ¬ type t = Income)).
  - apply filter_app_complement.
  - intros t. destruct (type t); split; congruence.
Qed.

Section Lists.
Variable LocalTZA : Z.

Local Abbreviation getFullYear := (JSDate.getFullYear LocalTZA).
Local Abbreviation getMonth := (JSDate.getMonth LocalTZA).
Local Abbreviation getDate := (JSDate.getDate LocalTZA).
Local Abbreviation addMonths := (JSDate.addMonths LocalTZA).

(** X3. The Income list and the Expenses list together show each
    transaction dated in the year and month of the current date once,
    and nothing else; each list holds one type only and is in
    chronological order. *)
Theorem lists_show_the_month (transactions : list Transaction)
    (currentDate : Z) :
  let income :=
    default [] (TransactionList.items
                  (incomeTransactions LocalTZA transactions currentDate)) in
  let expenses :=
    default [] (TransactionList.items
                  (expenseTransactions LocalTZA transactions currentDate)) in
  income ++ expenses
  ≡ₚ filter (λ t, getFullYear (date t) = getFullYear currentDate
                  ∧ getMonth (date t) = getMonth currentDate) transactions
  ∧ Forall (λ t, type t = Income) income
  ∧ Forall (λ t, type t = Expense) expenses
  ∧ StronglySorted (λ a b, date a ≤ date b) income
  ∧ StronglySorted (λ a b, date a ≤ date b) expenses.
Proof.
  intros income expenses. unfold income, expenses.
  split_and!; [| | |apply items_sorted..].
  - rewrite !items_Permutation. apply filter_by_type.
  - rewrite items_Permutation. apply Forall_forall.
    by intros t [? _]%list_elem_of_filter.
  - rewrite items_Permutation. apply Forall_forall.
    by intros t [? _]%list_elem_of_filter.
Qed.

(** Advancing a date whose day every month has moves the count of
    months by that number. *)
Lemma addMonths_count (t i : Z) :
  getDate t ≤ 28 →
  12 * getFullYear (addMonths t i) + getMonth (addMonths t i)
  = 12 * getFullYear t + getMonth t + i.
Proof.
  intros Hd. unfold JSDate.addMonths.
  destruct (civil_of_setMonth LocalTZA t (getMonth t + i)) as (Hy & Hm & _).
  { pose proof (LeapOfYear_range
      (getFullYear t + (getMonth t + i) `div` 12)) as [Hl _].
    pose proof (DaysInMonth_lower _ ((getMonth t + i) `mod` 12) Hl). lia. }
  rewrite Hy, Hm. zdiv.
Qed.

Lemma pressNext_S (count : nat) (currentDate : Z) :
  pressNext LocalTZA (S count) currentDate
  = handleMonthChange LocalTZA "next" (pressNext LocalTZA count currentDate).
Proof. reflexivity. Qed.

Lemma pressNext_count (count : nat) (currentDate : Z) :
  12 * getFullYear (pressNext LocalTZA count currentDate)
  + getMonth (pressNext LocalTZA count currentDate)
  = 12 * getFullYear currentDate + getMonth currentDate + Z.of_nat count.
Proof.
  induction count as [|count IH].
  - unfold pressNext. simpl. lia.
  - rewrite pressNext_S.
    destruct (handleMonthChange_next LocalTZA
                (pressNext LocalTZA count currentDate)) as [Hcount _].
    lia.
Qed.

Variable uuids : nat → uuid.

(** The date of the occurrence that [handleAddTransaction] appends at
    index [i]. *)
Lemma handleAddTransaction_date (transactions : list Transaction)
    (draft : Draft.t) (R : Z) (n i : nat) (t : Transaction) :
  (handleAddTransaction LocalTZA uuids transactions draft R n).1
    !! (length transactions + i)%nat = Some t →
  date t = addMonths (Draft.date draft) (Z.of_nat i)
  ∧ recurringId t = (if decide (0 < R) then Some (uuids n) else None)
  ∧ (Z.of_nat i ≤ if decide (0 < R) then R else 0).
Proof.
  rewrite AppFacts.handleAddTransaction_eq.
  case_decide as HR; cbn [fst];
    rewrite lookup_app_r, Nat.add_comm, Nat.add_sub by lia.
  - rewrite list_lookup_fmap.
    intros [k [[-> Hk]%lookup_seq ->]]%fmap_Some. simpl.
    split_and!; [done..|lia].
  - destruct i as [|i]; [|done]. intros [= <-]. simpl.
    by rewrite addMonths_zero.
Qed.

(** X4. A transaction entered on a day of the month that every month
    has (the 28th at the latest), with any repeat count, shows once a
    month: the occurrence at index [i] is listed after [count] presses
    of the button for the next month exactly when [count = i]. *)
Theorem series_shows_once_a_month (transactions : list Transaction)
    (draft : Draft.t) (R : Z) (n i count : nat) (t : Transaction) :
  getDate (Draft.date draft) ≤ 28 →
  let added :=
    (handleAddTransaction LocalTZA uuids transactions draft R n).1 in
  added !! (length transactions + i)%nat = Some t →
  t ∈ filteredTransactions LocalTZA added
        (pressNext LocalTZA count (Draft.date draft))
  ↔ count = i.
Proof.
  intros Hd added Ht.
  destruct (handleAddTransaction_date _ _ _ _ _ _ Ht) as (Hdate & _).
  pose proof (addMonths_count (Draft.date draft) (Z.of_nat i) Hd) as Hi.
  pose proof (pressNext_count count (Draft.date draft)) as Hcount.
  apply list_elem_of_lookup_2 in Ht.
  unfold filteredTransactions. rewrite list_elem_of_filter, Hdate.
  revert Hi Hcount.
  generalize (addMonths (Draft.date draft) (Z.of_nat i)).
  generalize (pressNext LocalTZA count (Draft.date draft)).
  intros current occurrence Hi Hcount.
  pose proof (getMonth_range LocalTZA current).
  pose proof (getMonth_range LocalTZA occurrence).
  split.
  - intros [[Hy Hm] _]. lia.
  - intros ->. split; [|done]. apply month_count_inj. lia.
Qed.

Lemma filter_Forall_id {A} (P : A → Prop) `{!∀ x, Decision (P x)}
    (l : list A) :
  Forall P l → filter P l = l.
Proof.
  induction 1 as [|x l Hx _ IH]; [done|].
  by rewrite filter_cons_True, IH.
Qed.

Lemma filter_Forall_nil {A} (P : A → Prop) `{!∀ x, Decision (P x)}
    (l : list A) :
  Forall (λ x, ¬ P x) l → filter P l = [].
Proof.
  induction 1 as [|x l Hx _ IH]; [done|].
  by rewrite filter_cons_False.
Qed.

(** X5. Deleting the first occurrence of a series that has just been
    added, with all its future occurrences, gives back the list as it
    was before the addition (the identifiers drawn being new). *)
Theorem add_then_delete_series (transactions : list Transaction)
    (draft : Draft.t) (R : Z) (n : nat) :
  0 < R →
  uuids (S n) ∉ id <$> transactions →
  Some (uuids n) ∉ recurringId <$> transactions →
  let added :=
    (handleAddTransaction LocalTZA uuids transactions draft R n).1 in
  handleDeleteTransaction added (uuids (S n)) (Some (uuids n)) true
  = transactions.
Proof.
  intros HR Hid Hgroup added. unfold added.
  rewrite AppFacts.handleAddTransaction_eq, decide_True by done. cbn [fst].
  replace (Z.to_nat (R + 1)) with (S (Z.to_nat R)) by lia.
  cbn [seq]. rewrite fmap_cons, Nat.add_0_r.
  change (Z.of_nat 0) with 0. rewrite addMonths_zero.
  set (first := mkTransaction (uuids (S n)) _ _ _ _ _ _).
  set (later := _ <$> seq 1 _).
  unfold handleDeleteTransaction, setState.
  assert (Array_find (λ t, id t = uuids (S n))
            (transactions ++ first :: later) = Some first) as ->.
  { apply Array_find_Some. exists (length transactions). split_and!.
    - by rewrite lookup_app_r, Nat.sub_diag by lia.
    - done.
    - intros j y Hj Hlt Hy. rewrite lookup_app_l in Hj by done.
      apply Hid. rewrite <-Hy. apply list_elem_of_fmap.
      exists y. split; [done|]. by eapply list_elem_of_lookup_2. }
  rewrite filter_app, filter_Forall_id, filter_Forall_nil.
  - by rewrite app_nil_r.
  - apply Forall_forall. intros t Ht Hkeep. apply Hkeep.
    apply elem_of_cons in Ht as [->|Ht]; [by split|].
    apply list_elem_of_fmap in Ht as (k & -> & _). split; [done|].
    cbn [date first]. apply addMonths_ge. lia.
  - apply Forall_forall. intros t Ht [Hg _]. apply Hgroup.
    rewrite <-Hg. apply list_elem_of_fmap. by exists t.
Qed.

End Lists.

(** X4 on the samples: the gym subscription of the 10th of March 2024,
    repeated twice; its April occurrence is shown after one Next. *)
Lemma series_shows_once_a_month_witness :
  JSDate.getDate 0 (Draft.date Samples.gymDraft) ≤ 28
  ∧ (handleAddTransaction 0 Samples.uuids Samples.transactions
       Samples.gymDraft 2 0%nat).1 !! (length Samples.transactions + 1)%nat
    = Some ViewSamples.gymApril
  ∧ (ViewSamples.gymApril
       ∈ filteredTransactions 0
           (handleAddTransaction 0 Samples.uuids Samples.transactions
              Samples.gymDraft 2 0%nat).1
           (pressNext 0 1%nat (Draft.date Samples.gymDraft))
     ↔ 1%nat = 1%nat).
Proof.
  assert (JSDate.getDate 0 (Draft.date Samples.gymDraft) ≤ 28) as Hday
    by (vm_compute; discriminate).
  assert ((handleAddTransaction 0 Samples.uuids Samples.transactions
             Samples.gymDraft 2 0%nat).1 !! (length Samples.transactions + 1)%nat
          = Some ViewSamples.gymApril) as Hlookup
    by (vm_compute; reflexivity).
  split_and!; [exact Hday|exact Hlookup|].
  exact (series_shows_once_a_month 0 Samples.uuids Samples.transactions
           Samples.gymDraft 2 0%nat 1%nat 1%nat ViewSamples.gymApril
           Hday Hlookup).
Defined.

(** X5 on the samples. *)
Lemma add_then_delete_series_witness :
  0 < 2
  ∧ (Samples.uuids 1 ∉ id <$> Samples.transactions)
  ∧ (Some (Samples.uuids 0) ∉ recurringId <$> Samples.transactions)
  ∧ handleDeleteTransaction
      (handleAddTransaction 0 Samples.uuids Samples.transactions
         Samples.gymDraft 2 0%nat).1
      (Samples.uuids 1) (Some (Samples.uuids 0)) true
    = Samples.transactions.
Proof.
  assert (0 < 2) as Hpos by lia.
  assert (Samples.uuids 1 ∉ id <$> Samples.transactions) as Hid
    by compute_done.
  assert (Some (Samples.uuids 0) ∉ recurringId <$> Samples.transactions)
    as Hgroup by compute_done.
  split_and!; [exact Hpos|exact Hid|exact Hgroup|].
  exact (add_then_delete_series 0 Samples.uuids Samples.transactions
           Samples.gymDraft 2 0%nat Hpos Hid Hgroup).
Defined.

End ViewFacts.

(** ** Opening the edit modal and saving it as it is *)
Module ModalFacts.
Import Model JS JSDate JSDateFacts JSFacts App.
Import EditTransactionModalEffect.
Local Open Scope Z_scope.

Section Modal.
Variable LocalTZA : Z.
Variable parseFloat : string → number.
Variable toString : number → string.

(** The date field that the effect fills, read back by [handleUpdate]:
    the local calendar date becomes the UTC calendar date of the
    original, the time of the day is kept. *)
Lemma setFullYear_dateField (t year month day : Z) :
  0 ≤ YearFromTime t →
  dateField t = Some (year, month, day) →
  setFullYear LocalTZA t year (month - 1) day
  = t - (Day (LocalTime LocalTZA t) - Day t) * msPerDay.
Proof.
  intros Hyear. unfold dateField; cbv zeta.
  rewrite decide_True by done. intros [= <- <- <-].
  unfold setFullYear; cbv zeta.
  replace (MonthFromTime t + 1 - 1) with (MonthFromTime t) by lia.
  rewrite MakeDay_civil.
  unfold UTC, MakeDate, LocalTime, Day, TimeWithinDay, msPerDay. zdiv.
Qed.

Lemma validation_passes (description amount : string) :
  description ≠ "" → gt_zero (parseFloat amount) = true →
  bool_decide (description = "") || negb (truthy (parseFloat amount))
  || le_zero (parseFloat amount) = false.
Proof.
  intros Hd Hpos. rewrite bool_decide_eq_false_2 by done.
  destruct (parseFloat amount) as [|negative|q]; simpl in *.
  - done.
  - by destruct negative.
  - apply bool_decide_eq_true in Hpos.
    rewrite (bool_decide_eq_true_2 (q ≠ 0%Qc)), bool_decide_eq_false_2.
    + done.
    + by apply Qclt_not_le.
    + intros ->. by apply (Qclt_not_eq _ _ Hpos).
Qed.

(** X6. When the modal is saved with the date field as the effect
    filled it, for a transaction of year 0 or later, the transaction is
    moved by as many whole days as the local calendar day of its date
    is ahead of the UTC calendar day: its date is kept exactly when the
    two days are the same. *)
Theorem untouched_date_follows_utc_day (transaction updatedTransaction
    : Transaction) (s modal' : EditTransactionModal.state)
    (scope scope' : string) :
  0 ≤ YearFromTime (date transaction) →
  EditTransactionModal.handleUpdate parseFloat LocalTZA transaction
    (onTransaction toString transaction s) scope
  = EditTransactionModal.Returned modal' (Some (updatedTransaction, scope')) →
  date updatedTransaction
  = date transaction
    - (Day (LocalTime LocalTZA (date transaction)) - Day (date transaction))
      * msPerDay
  ∧ (date updatedTransaction = date transaction
     ↔ Day (LocalTime LocalTZA (date transaction)) = Day (date transaction)).
Proof.
  intros Hyear Hmodal.
  apply AppFacts.handleUpdate_accepted in Hmodal
    as (_ & _ & _ & _ & _ & _ & _ & _ & (year & month & day & Hfield & ->) & _).
  cbn [EditTransactionModal.date onTransaction] in Hfield.
  rewrite (setFullYear_dateField _ _ _ _ Hyear Hfield).
  split; [done|]. unfold msPerDay. lia.
Qed.

(** X7. Opening the modal on a listed transaction and saving it for
    this entry only, with no field touched, changes nothing, provided
    the transaction is one the forms produce (a description, a positive
    amount that its printed form parses back to, a non-empty category
    exactly for an expense), is of year 0 or later, and its local and
    UTC calendar days agree. *)
Theorem save_untouched_is_noop (transactions : list Transaction)
    (transaction : Transaction) (s : EditTransactionModal.state) :
  NoDup (id <$> transactions) → transaction ∈ transactions →
  description transaction ≠ "" →
  wellFormed transaction → category transaction ≠ Some "" →
  parseFloat (toString (amount transaction)) = amount transaction →
  0 ≤ YearFromTime (date transaction) →
  Day (LocalTime LocalTZA (date transaction)) = Day (date transaction) →
  submitEditTransactionModal LocalTZA parseFloat transactions transaction
    (onTransaction toString transaction s) "this"
  = (onTransaction toString transaction s, transactions).
Proof.
  intros Hnd Hin Hdesc [Hpos Hwf] Hempty Hparse Hyear Hday.
  assert (category transaction
          = if decide (type transaction = Expense)
            then Some (EditTransactionModal.category
                         (onTransaction toString transaction s))
            else None) as Hcat.
  { cbn [EditTransactionModal.category onTransaction].
    destruct (category transaction) as [c|] eqn:Hc.
    - rewrite decide_True by (apply Hwf; eauto).
      by rewrite decide_False by congruence.
    - rewrite decide_False; [done|]. intros Htype%Hwf. by destruct Htype. }
  unfold submitEditTransactionModal, EditTransactionModal.handleUpdate.
  cbv zeta.
  cbn [EditTransactionModal.description EditTransactionModal.amount
       EditTransactionModal.type EditTransactionModal.date onTransaction].
  rewrite validation_passes by (by rewrite ?Hparse).
  unfold dateField; cbv zeta. rewrite decide_True by done.
  pose proof (setFullYear_dateField (date transaction) _ _ _ Hyear
                (eq_trans
                   (decide_True (P:=0 ≤ YearFromTime (date transaction))
                      _ _ Hyear) eq_refl)) as Hdate.
  unfold dateField in Hdate. rewrite Hdate, Hday, Z.sub_diag, Z.sub_0_r.
  rewrite Hparse, <-Hcat. f_equal.
  assert (mkTransaction (id transaction) (description transaction)
            (amount transaction) (type transaction) (category transaction)
            (date transaction) (recurringId transaction) = transaction)
    as -> by by destruct transaction.
  unfold handleUpdateTransaction, setState.
  rewrite decide_False by (by intros [? _]).
  rewrite <-(list_fmap_id transactions) at 2.
  apply list_fmap_ext. intros i t Ht.
  destruct (decide (id t = id transaction)) as [Hid|]; [|done].
  apply (NoDup_fmap_eq id transactions); [done..| |done].
  by eapply list_elem_of_lookup_2.
Qed.

End Modal.

(** X6 on the samples: twelve hours ahead of UTC, noon (UTC) of the
    15th of February is on the 16th, and the saved rent is one day
    earlier than the stored one. *)
Lemma untouched_date_follows_utc_day_witness :
  0 ≤ JSDate.YearFromTime (date (Samples.rent 202 1))
  ∧ EditTransactionModal.handleUpdate Samples.parseFloat
      ViewSamples.twelveHoursAhead (Samples.rent 202 1)
      (onTransaction ViewSamples.toString (Samples.rent 202 1)
         Samples.rentModal) "this"
    = EditTransactionModal.Returned
        (onTransaction ViewSamples.toString (Samples.rent 202 1)
           Samples.rentModal)
        (Some (ViewSamples.rentDayBefore, "this"))
  ∧ date ViewSamples.rentDayBefore
    = date (Samples.rent 202 1)
      - (JSDate.Day (JSDate.LocalTime ViewSamples.twelveHoursAhead
                       (date (Samples.rent 202 1)))
         - JSDate.Day (date (Samples.rent 202 1))) * JSDate.msPerDay.
Proof.
  assert (0 ≤ JSDate.YearFromTime (date (Samples.rent 202 1))) as Hyear
    by (vm_compute; discriminate).
  assert (EditTransactionModal.handleUpdate Samples.parseFloat
            ViewSamples.twelveHoursAhead (Samples.rent 202 1)
            (onTransaction ViewSamples.toString (Samples.rent 202 1)
               Samples.rentModal) "this"
          = EditTransactionModal.Returned
              (onTransaction ViewSamples.toString (Samples.rent 202 1)
                 Samples.rentModal)
              (Some (ViewSamples.rentDayBefore, "this"))) as Hmodal
    by (vm_compute; reflexivity).
  split_and!; [exact Hyear|exact Hmodal|].
  exact (proj1 (untouched_date_follows_utc_day ViewSamples.twelveHoursAhead
                  Samples.parseFloat ViewSamples.toString
                  (Samples.rent 202 1) ViewSamples.rentDayBefore
                  Samples.rentModal _ "this" "this" Hyear Hmodal)).
Defined.

(** X7 on the samples, in UTC: the February rent. *)
Lemma save_untouched_is_noop_witness :
  NoDup (id <$> Samples.transactions)
  ∧ Samples.rent 202 1 ∈ Samples.transactions
  ∧ description (Samples.rent 202 1) ≠ ""
  ∧ wellFormed (Samples.rent 202 1)
  ∧ category (Samples.rent 202 1) ≠ Some ""
  ∧ Samples.parseFloat (ViewSamples.toString (amount (Samples.rent 202 1)))
    = amount (Samples.rent 202 1)
  ∧ 0 ≤ JSDate.YearFromTime (date (Samples.rent 202 1))
  ∧ JSDate.Day (JSDate.LocalTime 0 (date (Samples.rent 202 1)))
    = JSDate.Day (date (Samples.rent 202 1))
  ∧ submitEditTransactionModal 0 Samples.parseFloat Samples.transactions
      (Samples.rent 202 1)
      (onTransaction ViewSamples.toString (Samples.rent 202 1)
         Samples.rentModal) "this"
    = (onTransaction ViewSamples.toString (Samples.rent 202 1)
         Samples.rentModal, Samples.transactions).
Proof.
  assert (NoDup (id <$> Samples.transactions)) as Hnd by compute_done.
  assert (Samples.rent 202 1 ∈ Samples.transactions) as Hin by compute_done.
  assert (description (Samples.rent 202 1) ≠ "") as Hdesc by done.
  assert (wellFormed (Samples.rent 202 1)) as Hwf.
  { split; [reflexivity|]. split; [done|]. intros _. simpl. eauto. }
  assert (category (Samples.rent 202 1) ≠ Some "") as Hcat by done.
  assert (Samples.parseFloat
            (ViewSamples.toString (amount (Samples.rent 202 1)))
          = amount (Samples.rent 202 1)) as Hparse by reflexivity.
  assert (0 ≤ JSDate.YearFromTime (date (Samples.rent 202 1))) as Hyear
    by (vm_compute; discriminate).
  assert (JSDate.Day (JSDate.LocalTime 0 (date (Samples.rent 202 1)))
          = JSDate.Day (date (Samples.rent 202 1))) as Hday
    by reflexivity.
  split_and!; [exact Hnd|exact Hin|exact Hdesc|exact Hwf|exact Hcat
              |exact Hparse|exact Hyear|exact Hday|].
  exact (save_untouched_is_noop 0 Samples.parseFloat ViewSamples.toString
           Samples.transactions (Samples.rent 202 1) Samples.rentModal
           Hnd Hin Hdesc Hwf Hcat Hparse Hyear Hday).
Defined.

End ModalFacts.

(** ** The budget editor: inputs, check boxes, and the next month *)
Module BudgetEditorFacts.
Import Model JS JSDate JSDateFacts App AppView MonthFacts.
Import BudgetSetup BudgetSetupHandlers BudgetSetupFacts.
Local Open Scope Z_scope.

(** X8. An input of the budget editor stores the parsed value, and 0
    when the text does not parse or parses to 0, so never [NaN]: in
    [incomeGoal] or [savingsGoal] for the input of that name, in the
    expense budget of the category for any other name.  Every other
    field, every other category and the recurring flags are kept. *)
Theorem handleInputChange_field (parseFloat : string → number)
    (name value : string) (prev : Budget) :
  let numericValue :=
    if truthy (parseFloat value) then parseFloat value else Finite 0%Qc in
  let next := handleInputChange parseFloat name value prev in
  numericValue ≠ NaN
  ∧ incomeGoal next
    = (if decide (name = "incomeGoal") then numericValue
       else incomeGoal prev)
  ∧ savingsGoal next
    = (if decide (name = "savingsGoal") then numericValue
       else savingsGoal prev)
  ∧ (∀ cat,
       expenseBudgets next !! cat
       = if decide (cat = name ∧ name ≠ "incomeGoal"
                    ∧ name ≠ "savingsGoal")
         then Some numericValue else expenseBudgets prev !! cat)
  ∧ recurring next = recurring prev.
Proof.
  intros numericValue next. split.
  { unfold numericValue.
    destruct (parseFloat value) as [| |q]; simpl; [done..|].
    by case_bool_decide. }
  unfold next, handleInputChange. fold numericValue.
  destruct (decide (name = "incomeGoal")) as [->|Hincome].
  { rewrite decide_True by by left. simpl. repeat split; try done.
    intros cat. by rewrite decide_False by (by intros (_ & ? & _)). }
  destruct (decide (name = "savingsGoal")) as [->|Hsavings].
  { rewrite decide_True by by right. simpl. repeat split; try done.
    intros cat. by rewrite decide_False by (by intros (_ & _ & ?)). }
  rewrite decide_False by (by intros [?|?]). simpl.
  repeat split; try done.
  intros cat. destruct (decide (cat = name)) as [->|Hcat].
  - rewrite decide_True by done. by rewrite lookup_insert_eq.
  - rewrite decide_False by (by intros [? _]).
    by rewrite lookup_insert_ne.
Qed.

Lemma handleRecurringChange_has_key (field : string) (checked : bool)
    (prev : Recurring.t) :
  Recurring.hasNoKeys (handleRecurringChange field checked prev) = false.
Proof.
  unfold handleRecurringChange.
  destruct prev as [[?|] [?|] [?|]]; by repeat case_decide.
Qed.

(** X9. Once a check box of the editor has been touched, the budget
    that Save hands on opens in the editor exactly as it was saved,
    check boxes included, whatever the previous month holds. *)
Theorem touched_budget_reopens_as_saved (field : string) (checked : bool)
    (recurring0 : Recurring.t) (budget : Budget)
    (previousBudget : option Budget) :
  let recurring1 := handleRecurringChange field checked recurring0 in
  let saved := handleSave budget recurring1 in
  onOpen saved previousBudget = (saved, recurring1).
Proof.
  intros recurring1 saved. unfold onOpen; cbv zeta.
  cbn [recurring saved handleSave].
  unfold recurring1. rewrite handleRecurringChange_has_key. simpl.
  by repeat case_match.
Qed.

Section NextMonth.
Variable LocalTZA : Z.

Lemma currentMonthKey_next_ne (currentDate : Z) :
  currentMonthKey (monthKeys LocalTZA currentDate)
  ≠ currentMonthKey
      (monthKeys LocalTZA (handleMonthChange LocalTZA "next" currentDate)).
Proof.
  destruct (handleMonthChange_next LocalTZA currentDate) as [Hcount _].
  revert Hcount.
  generalize (handleMonthChange LocalTZA "next" currentDate).
  intros next Hcount. rewrite !currentMonthKey_monthKeys.
  intros Hkey. apply monthKey_inj in Hkey as [Hy Hm].
  - rewrite Hy, Hm in Hcount. lia.
  - apply getMonth_range.
  - apply getMonth_range.
Qed.

(** X10. A budget stored for the month of the current date, with its
    recurring flags, is carried into the next month: after Next, if
    that month has no budget yet, the editor opens with the stored
    value of every flagged field and category, with 5000, 500 and the
    entries of the empty budget for the others, and with the same
    recurring flags. *)
Theorem budget_carried_to_next_month (budgets : gmap string Budget)
    (currentDate : Z) (saved : Budget) (flags : Recurring.t) :
  recurring saved = Some flags →
  let next := handleMonthChange LocalTZA "next" currentDate in
  let stored := handleSaveBudget LocalTZA budgets currentDate saved in
  budgets !! currentMonthKey (monthKeys LocalTZA next) = None →
  let opened :=
    onOpen (currentBudget LocalTZA stored next)
           (previousBudget LocalTZA stored next) in
  incomeGoal opened.1
  = (if flagSet (Recurring.incomeGoal flags) then incomeGoal saved
     else Finite (Qc_of_Z 5000))
  ∧ savingsGoal opened.1
    = (if flagSet (Recurring.savingsGoal flags) then savingsGoal saved
       else Finite (Qc_of_Z 500))
  ∧ (∀ cat,
       expenseBudgets opened.1 !! cat
       = if flagSet (Recurring.expenseBudgets flags ≫= (.!! cat))
         then expenseBudgets saved !! cat
         else expenseBudgets emptyBudget !! cat)
  ∧ opened.2 = flags.
Proof.
  intros Hflags next stored Hnone opened.
  assert (currentBudget LocalTZA stored next = emptyBudget) as Hcurrent.
  { unfold currentBudget, stored, handleSaveBudget.
    rewrite lookup_insert_ne by apply currentMonthKey_next_ne.
    fold next. by rewrite Hnone. }
  assert (previousBudget LocalTZA stored next = Some saved) as Hprevious.
  { unfold previousBudget, stored, handleSaveBudget, next.
    rewrite previousMonthKey_next. by rewrite lookup_insert_eq. }
  unfold opened. rewrite Hcurrent, Hprevious.
  unfold onOpen; cbv zeta. rewrite Hflags.
  change (recurring emptyBudget) with (Some Recurring.empty).
  change (Recurring.hasNoKeys Recurring.empty) with true.
  cbv iota.
  cbn [fst snd incomeGoal savingsGoal expenseBudgets].
  change (incomeGoal emptyBudget) with (Finite (Qc_of_Z 5000)).
  change (savingsGoal emptyBudget) with (Finite (Qc_of_Z 500)).
  repeat split.
  intros cat. destruct (Recurring.expenseBudgets flags) as [boxes|]; simpl.
  - apply copyRecurringExpenses_lookup.
  - done.
Qed.

End NextMonth.

(** X10 on the samples: a budget saved on the 10th of March 2024 with
    the savings goal and Groceries flagged; April opens with its savings
    goal of 800 and the income goal of the empty budget. *)
Lemma budget_carried_to_next_month_witness :
  recurring Samples.lastMonthBudget
  = Some (Recurring.mk None (Some true)
            (Some {["Groceries" := true; "Travel" := false]}))
  ∧ ViewSamples.februaryBudgets
    !! currentMonthKey
         (monthKeys 0 (handleMonthChange 0 "next" (Samples.noon 2024 2 10)))
    = None
  ∧ savingsGoal
      (onOpen
         (currentBudget 0
            (handleSaveBudget 0 ViewSamples.februaryBudgets
               (Samples.noon 2024 2 10) Samples.lastMonthBudget)
            (handleMonthChange 0 "next" (Samples.noon 2024 2 10)))
         (previousBudget 0
            (handleSaveBudget 0 ViewSamples.februaryBudgets
               (Samples.noon 2024 2 10) Samples.lastMonthBudget)
            (handleMonthChange 0 "next" (Samples.noon 2024 2 10)))).1
    = Finite (Qc_of_Z 800).
Proof.
  assert (recurring Samples.lastMonthBudget
          = Some (Recurring.mk None (Some true)
                    (Some {["Groceries" := true; "Travel" := false]})))
    as Hflags by reflexivity.
  assert (ViewSamples.februaryBudgets
          !! currentMonthKey
               (monthKeys 0
                  (handleMonthChange 0 "next" (Samples.noon 2024 2 10)))
          = None) as Hnone by (vm_compute; reflexivity).
  split_and!; [exact Hflags|exact Hnone|].
  exact (proj1 (proj2 (budget_carried_to_next_month 0
                         ViewSamples.februaryBudgets
                         (Samples.noon 2024 2 10) Samples.lastMonthBudget _
                         Hflags Hnone))).
Defined.

End BudgetEditorFacts.

(** ** Spending by category and the order of a list *)
Module ChartFacts.
Import Model JS JSFacts CategoryChart.
Local Open Scope Z_scope.

Section Totals.
Variable add : number → number → number.

Lemma foldl_categoryTotals_lookup (expenses : list Transaction)
    (acc : gmap string number) :
  Forall (λ expense,
            categoryOrOther (category expense) ∉ ObjectPrototypeKeys)
         expenses →
  ∃ totals,
    foldl (λ acc expense,
             totals ← acc;
             let category := categoryOrOther (category expense) in
             if decide (category ∈ ObjectPrototypeKeys) then None
             else Some (<[category :=
                            add (totalOrZero (totals !! category))
                                (amount expense)]> totals))
          (Some acc) expenses = Some totals
    ∧ ∀ c, totals !! c
           = foldl (addExpense add) (acc !! c)
               (filter (λ expense, categoryOrOther (category expense) = c)
                  expenses).
Proof.
  intros Hown. revert acc.
  induction Hown as [|expense expenses Hexpense _ IH]; intros acc.
  { by exists acc. }
  simpl. rewrite decide_False by done.
  destruct (IH (<[categoryOrOther (category expense) :=
                    add (totalOrZero
                           (acc !! categoryOrOther (category expense)))
                        (amount expense)]> acc))
    as (totals & Htotals & Hlookup).
  exists totals. split; [exact Htotals|]. intros c. rewrite Hlookup.
  destruct (decide (categoryOrOther (category expense) = c)) as [<-|Hne].
  - rewrite filter_cons_True by done. simpl.
    by rewrite lookup_insert_eq.
  - rewrite filter_cons_False by done.
    by rewrite lookup_insert_ne.
Qed.

Lemma foldl_addExpense_is_Some (total : option number)
    (expenses : list Transaction) :
  is_Some (foldl (addExpense add) total expenses)
  ↔ is_Some total ∨ expenses ≠ [].
Proof.
  revert total. induction expenses as [|expense expenses IH]; intros total.
  - simpl. split; [by left|]. by intros [?|?].
  - simpl. rewrite IH. split; [by right|].
    intros _. left. unfold addExpense. eauto.
Qed.

(** X11. For expenses whose categories are not names that every
    object inherits, the chart has a total for each category: it is made
    from the expenses of that category alone (those without a category
    count under Other), added in the order of the list, a running total
    that is 0 or NaN counting as 0; a category has a total exactly when
    an expense has it. *)
Theorem categoryTotals_lookup (expenses : list Transaction) :
  Forall (λ expense,
            categoryOrOther (category expense) ∉ ObjectPrototypeKeys)
         expenses →
  ∃ totals,
    categoryTotals add expenses = Some totals
    ∧ ∀ c,
        totals !! c
        = foldl (addExpense add) None
            (filter (λ expense, categoryOrOther (category expense) = c)
               expenses)
        ∧ (is_Some (totals !! c)
           ↔ ∃ expense,
               expense ∈ expenses
               ∧ categoryOrOther (category expense) = c).
Proof.
  intros Hown.
  destruct (foldl_categoryTotals_lookup expenses ∅ Hown)
    as (totals & Htotals & Hlookup).
  exists totals. split; [done|]. intros c.
  rewrite Hlookup, lookup_empty. split; [done|].
  rewrite foldl_addExpense_is_Some. split.
  - intros [[? [=]]|Hne].
    destruct (filter _ expenses) as [|expense rest] eqn:Hfilter; [done|].
    exists expense.
    assert (expense ∈ filter
              (λ expense, categoryOrOther (category expense) = c) expenses)
      as Hfiltered by (rewrite Hfilter; by left).
    apply list_elem_of_filter in Hfiltered as [? ?]. done.
  - intros (expense & Hin & Hc). right. intros Hnil.
    assert (expense ∈ filter
              (λ expense, categoryOrOther (category expense) = c) expenses)
      as Hfiltered by by apply list_elem_of_filter.
    rewrite Hnil in Hfiltered. by apply elem_of_nil in Hfiltered.
Qed.

End Totals.

(** X11 on the samples: the rents add up under Household, the salary,
    which has no category, counts under Other. *)
Lemma categoryTotals_lookup_witness :
  Forall (λ expense,
            categoryOrOther (category expense) ∉ ObjectPrototypeKeys)
         Samples.transactions
  ∧ ∃ totals,
      categoryTotals ViewSamples.add Samples.transactions = Some totals
      ∧ ∀ c,
          totals !! c
          = foldl (addExpense ViewSamples.add) None
              (filter (λ expense, categoryOrOther (category expense) = c)
                 Samples.transactions)
          ∧ (is_Some (totals !! c)
             ↔ ∃ expense,
                 expense ∈ Samples.transactions
                 ∧ categoryOrOther (category expense) = c).
Proof.
  assert (Forall (λ expense,
                    categoryOrOther (category expense) ∉ ObjectPrototypeKeys)
                 Samples.transactions) as Hown by compute_done.
  split; [exact Hown|].
  exact (categoryTotals_lookup ViewSamples.add Samples.transactions Hown).
Defined.

(** X12. A transaction list shows each of its transactions once, by
    ascending date, those of one date in the order they are stored in;
    the line that says that nothing is recorded is shown exactly for
    the empty list. *)
Theorem items_chronological (transactions : list Transaction) :
  match TransactionList.items transactions with
  | Some shown =>
      transactions ≠ []
      ∧ shown ≡ₚ transactions
      ∧ StronglySorted (λ a b, date a ≤ date b) shown
      ∧ ∀ d, filter (λ t, date t = d) shown
             = filter (λ t, date t = d) transactions
  | None => transactions = []
  end.
Proof.
  unfold TransactionList.items. case_decide as Hlen.
  - split; [by destruct transactions; [simpl in Hlen; lia|]|].
    split; [apply (Array_sort_Permutation date)|].
    split; [apply (Array_sort_sorted date)|].
    intros d. apply (Array_sort_stable date).
  - destruct transactions; [done|simpl in Hlen; lia].
Qed.

End ChartFacts.

(** ** Going to a month and back *)
Module NavigationFacts.
Import Model JS JSDate JSDateFacts App MonthFacts.
Local Open Scope Z_scope.

Section Navigation.
Variable LocalTZA : Z.

Local Abbreviation getFullYear := (JSDate.getFullYear LocalTZA).
Local Abbreviation getMonth := (JSDate.getMonth LocalTZA).
Local Abbreviation getDate := (JSDate.getDate LocalTZA).

(** A time value is determined by its local date and time of the day. *)
Lemma local_civil_inj (t t' : Z) :
  getFullYear t = getFullYear t' → getMonth t = getMonth t' →
  getDate t = getDate t' →
  TimeWithinDay (LocalTime LocalTZA t) = TimeWithinDay (LocalTime LocalTZA t') →
  t = t'.
Proof.
  unfold JSDate.getFullYear, JSDate.getMonth, JSDate.getDate.
  intros Hy Hm Hd Htime.
  assert (LocalTime LocalTZA t = LocalTime LocalTZA t') as Hlocal.
  { rewrite <-(MakeDate_civil (LocalTime LocalTZA t)).
    rewrite <-(MakeDate_civil (LocalTime LocalTZA t')).
    by rewrite Hy, Hm, Hd, Htime. }
  unfold LocalTime in Hlocal. lia.
Qed.

(** The navigation keeps the time of the day. *)
Lemma handleMonthChange_time (direction : string) (currentDate : Z) :
  TimeWithinDay
    (LocalTime LocalTZA (handleMonthChange LocalTZA direction currentDate))
  = TimeWithinDay (LocalTime LocalTZA currentDate).
Proof.
  unfold handleMonthChange; cbv zeta.
  destruct (civil_of_setDate LocalTZA currentDate 1) as (_ & _ & Hd & Htime);
    [lia|].
  revert Hd Htime. generalize (setDate LocalTZA currentDate 1).
  intros first Hd Htime. rewrite <-Htime.
  generalize (if decide (direction = "next") then 1 else -1).
  intros delta.
  destruct (civil_of_setMonth LocalTZA first (getMonth first + delta))
    as (_ & _ & _ & Htime'); [|done].
  rewrite Hd.
  pose proof (LeapOfYear_range
                (getFullYear first + (getMonth first + delta) `div` 12))
    as [Hl _].
  pose proof (DaysInMonth_lower _ ((getMonth first + delta) `mod` 12) Hl).
  lia.
Qed.

(** X13. Going to the next month and back, or to the previous month
    and back, gives the first day of the month started from, at the
    time of the day of the date started from: what [setDate(1)] alone
    gives. *)
Theorem navigation_round_trip (direction back : string) (currentDate : Z) :
  (direction = "next" ↔ back ≠ "next") →
  handleMonthChange LocalTZA back
    (handleMonthChange LocalTZA direction currentDate)
  = setDate LocalTZA currentDate 1.
Proof.
  intros Hopposite.
  destruct (handleMonthChange_civil LocalTZA direction currentDate)
    as [Hcount _].
  pose proof (handleMonthChange_time direction currentDate) as Htime.
  revert Hcount Htime.
  generalize (handleMonthChange LocalTZA direction currentDate).
  intros there Hcount Htime.
  destruct (handleMonthChange_civil LocalTZA back there) as [Hcount' Hd'].
  pose proof (handleMonthChange_time back there) as Htime'.
  revert Hcount' Hd' Htime'.
  generalize (handleMonthChange LocalTZA back there).
  intros again Hcount' Hd' Htime'.
  destruct (civil_of_setDate LocalTZA currentDate 1) as (Hy & Hm & Hd & Ht);
    [lia|].
  revert Hy Hm Hd Ht. generalize (setDate LocalTZA currentDate 1).
  intros first Hy Hm Hd Ht.
  assert (12 * getFullYear again + getMonth again
          = 12 * getFullYear first + getMonth first) as Hsame.
  { rewrite Hy, Hm, Hcount', Hcount.
    destruct (decide (direction = "next")) as [Hnext|Hnext],
             (decide (back = "next")) as [Hback|Hback]; try lia.
    - by apply Hopposite in Hnext.
    - destruct Hnext. by apply Hopposite. }
  apply month_count_inj in Hsame as [? ?].
  apply local_civil_inj; [done|done|lia|congruence].
Qed.

End Navigation.

(** X13 on the samples: the 10th of March 2024, to April and back. *)
Lemma navigation_round_trip_witness :
  ("next" = "next" ↔ "prev" ≠ "next")
  ∧ handleMonthChange 0 "prev"
      (handleMonthChange 0 "next" (Samples.noon 2024 2 10))
    = setDate 0 (Samples.noon 2024 2 10) 1.
Proof.
  assert ("next" = "next" ↔ "prev" ≠ "next") as Hopposite
    by (split; [discriminate|reflexivity]).
  split; [exact Hopposite|].
  exact (navigation_round_trip 0 "next" "prev" (Samples.noon 2024 2 10)
           Hopposite).
Defined.

End NavigationFacts.

(** ** Entering a transaction *)
Module FormFacts.
Import Model JS JSDate JSDateFacts App AppView.
Local Open Scope Z_scope.

Section Form.
Variable LocalTZA : Z.
Variable uuids : nat → uuid.
Variable parseFloat : string → number.

(** X14. An entry that the form accepts is dated with the current date
    of the application, the date whose month is on display, so it shows
    at once among the transactions of that month: it is the first
    transaction after the ones already stored, with the description,
    the parsed amount and the type of the form.  The form is cleared,
    keeping type and category. *)
Theorem accepted_entry_is_shown (transactions : list Transaction)
    (currentDate : Z) (form : TransactionForm.state) (n : nat) :
  ¬ invalidEntry parseFloat (TransactionForm.description form)
      (TransactionForm.amount form) →
  let result :=
    submitTransactionForm LocalTZA uuids parseFloat transactions currentDate
      form n in
  ∃ t,
    result.1.2 !! length transactions = Some t
    ∧ date t = currentDate
    ∧ description t = TransactionForm.description form
    ∧ amount t = parseFloat (TransactionForm.amount form)
    ∧ type t = TransactionForm.type form
    ∧ t ∈ filteredTransactions LocalTZA result.1.2 currentDate
    ∧ result.1.1
      = TransactionForm.mk "" "" (TransactionForm.type form)
          (TransactionForm.category form) false 1 "".
Proof.
  intros Hvalid result.
  assert (bool_decide (TransactionForm.description form = "")
          || negb (truthy (parseFloat (TransactionForm.amount form)))
          || le_zero (parseFloat (TransactionForm.amount form)) = false)
    as Hcheck.
  { destruct (_ || _ || _) eqn:Hcheck; [|done].
    by apply AppFacts.validation_rejects in Hcheck. }
  unfold result, submitTransactionForm, TransactionForm.handleSubmit.
  cbv zeta. rewrite Hcheck.
  unfold mbind, Gen_bind, mret, Gen_ret.
  rewrite AppFacts.handleAddTransaction_eq.
  set (draft := Draft.mk _ _ _ _ _).
  assert (∀ (t : Transaction) (added : list Transaction),
            date t = currentDate →
            (transactions ++ t :: added) !! length transactions = Some t
            ∧ t ∈ filteredTransactions LocalTZA (transactions ++ t :: added)
                    currentDate) as Hshown.
  { intros t added Hdate.
    assert ((transactions ++ t :: added) !! length transactions = Some t)
      as Hlookup by by rewrite lookup_app_r, Nat.sub_diag by lia.
    split; [done|]. apply list_elem_of_filter. rewrite Hdate.
    split; [done|]. by eapply list_elem_of_lookup_2. }
  generalize (if TransactionForm.isRecurring form
              then TransactionForm.recurrence form else 0).
  intros R. destruct (decide (0 < R)) as [Hrepeat|Hrepeat]; cbn [fst snd].
  - destruct (Z.to_nat (R + 1)) as [|count] eqn:Hcount; [lia|].
    cbn [seq fmap list_fmap].
    eexists.
    edestruct Hshown as [Hlookup Hin]; last first.
    { split; [exact Hlookup|].
      split_and!; [|done|done|done|exact Hin|done].
      exact (addMonths_zero LocalTZA currentDate). }
    exact (addMonths_zero LocalTZA currentDate).
  - eexists.
    edestruct Hshown as [Hlookup Hin]; last first.
    { split; [exact Hlookup|].
      split_and!; [|done|done|done|exact Hin|done]. reflexivity. }
    reflexivity.
Qed.

End Form.

(** X14 on the samples: the gym subscription, entered while March 2024
    is on display. *)
Lemma accepted_entry_is_shown_witness :
  ¬ invalidEntry Samples.parseFloat
      (TransactionForm.description Samples.gymForm)
      (TransactionForm.amount Samples.gymForm)
  ∧ ∃ t,
      (submitTransactionForm 0 Samples.uuids Samples.parseFloat
         Samples.transactions (Samples.noon 2024 2 10) Samples.gymForm
         0%nat).1.2 !! length Samples.transactions = Some t
      ∧ date t = Samples.noon 2024 2 10
      ∧ description t = TransactionForm.description Samples.gymForm
      ∧ amount t
        = Samples.parseFloat (TransactionForm.amount Samples.gymForm)
      ∧ type t = TransactionForm.type Samples.gymForm
      ∧ t ∈ filteredTransactions 0
              (submitTransactionForm 0 Samples.uuids Samples.parseFloat
                 Samples.transactions (Samples.noon 2024 2 10)
                 Samples.gymForm 0%nat).1.2
              (Samples.noon 2024 2 10)
      ∧ (submitTransactionForm 0 Samples.uuids Samples.parseFloat
           Samples.transactions (Samples.noon 2024 2 10) Samples.gymForm
           0%nat).1.1
        = TransactionForm.mk "" "" (TransactionForm.type Samples.gymForm)
            (TransactionForm.category Samples.gymForm) false 1 "".
Proof.
  assert (¬ invalidEntry Samples.parseFloat
              (TransactionForm.description Samples.gymForm)
              (TransactionForm.amount Samples.gymForm)) as Hvalid.
  { intros [H|[H|H]]; vm_compute in H; discriminate. }
  split; [exact Hvalid|].
  exact (accepted_entry_is_shown 0 Samples.uuids Samples.parseFloat
           Samples.transactions (Samples.noon 2024 2 10) Samples.gymForm
           0%nat Hvalid).
Defined.

End FormFacts.
